(** * Verification badges, registration listing and agent roll-ups

    A shallow embedding of the admin dashboard's pure logic:
    - [AgentDetailsPanel]: the recursive customer roll-up over the flat
      agent list and the delete confirmation;
    - [RegistrationsDialog]: fetching, filtering and ordering of
      registrations, the verification badge and the verify action;
    - the verification migration: column defaults and the status check;
    - the scoring contract of the verification act.

    JavaScript numbers that hold counts are modelled as [Z]; numbers that
    may carry a fraction (scores, percentages) as the exact rational [Q]
    they denote, so that a comparison [x >= 70] is the comparison of the
    values.  Objects used as dictionaries are [gmap string _]. *)

From Stdlib Require Import ZArith QArith Qround Qabs Lia DecimalString.
From stdpp Require Import base strings list gmap sorting.

(** ** The agent hierarchy ([AgentDetailsPanel]) *)

Module Agents.

Inductive AgentRole := team_leader | coordinator | group_leader | pro.

#[global] Instance AgentRole_eq_dec : EqDecision AgentRole.
Proof. solve_decision. Defined.

(** The fields of [PennyekartAgent] that the panel reads. *)
Record PennyekartAgent := {
  id : string;
  name : string;
  mobile : string;
  role : AgentRole;
  parent_agent_id : option string;
  customer_count : Z;
  ward : string
}.

(** [allAgents.filter(c => c.parent_agent_id === a.id)] *)
Definition directReportsOf (allAgents : list PennyekartAgent)
    (a : PennyekartAgent) : list PennyekartAgent :=
  filter (λ c, parent_agent_id c = Some (id a)) allAgents.

(** One step of [children.reduce((sum, child) => sum + f(child), 0)] where
    the call [f child] may not have returned. *)
Definition addChild (f : PennyekartAgent → option Z)
    (sum : option Z) (child : PennyekartAgent) : option Z :=
  match sum with
  | Some s => match f child with
              | Some v => Some (s + v)%Z
              | None => None
              end
  | None => None
  end.

(** [calculateTotalCustomers].  The source recursion has no measure, so
    the embedding counts the nesting depth allowed to the call: [None]
    means that the call has not returned within [depth] nested frames. *)
Fixpoint calculateTotalCustomers (depth : nat)
    (allAgents : list PennyekartAgent) (a : PennyekartAgent) : option Z :=
  match depth with
  | O => None
  | S d =>
      if decide (role a = pro) then Some (customer_count a)
      else
        let children := directReportsOf allAgents a in
        foldl (addChild (calculateTotalCustomers d allAgents)) (Some 0%Z) children
  end.

(** The call returns [v]: it does so within some nesting depth. *)
Definition returns (allAgents : list PennyekartAgent) (a : PennyekartAgent)
    (v : Z) : Prop :=
  ∃ depth, calculateTotalCustomers depth allAgents a = Some v.

(** [children.reduce((sum, x) => sum + x, 0)] over returned values. *)
Definition sumZ (vs : list Z) : Z := foldl Z.add 0%Z vs.

(** Modelled from the spec: the position of a role in the four-level order
    team_leader > coordinator > group_leader > pro (the source imports
    [getChildRole] from the agents hook, which is not part of the sources
    at hand). *)
Definition role_level (r : AgentRole) : nat :=
  match r with
  | pro => 0
  | group_leader => 1
  | coordinator => 2
  | team_leader => 3
  end.

(** Modelled from the spec: [getChildRole], the next level down. *)
Definition getChildRole (r : AgentRole) : option AgentRole :=
  match r with
  | team_leader => Some coordinator
  | coordinator => Some group_leader
  | group_leader => Some pro
  | pro => None
  end.

Definition role_levels : nat := 4.

(** Every parent link that the roll-up from [a] can follow goes strictly
    down the role order. *)
Definition levels_descend (allAgents : list PennyekartAgent)
    (a : PennyekartAgent) : Prop :=
  Forall (λ p,
    Forall (λ c, parent_agent_id c = Some (id p) →
                 role_level (role c) < role_level (role p)) allAgents)
    (a :: allAgents).

#[global] Instance levels_descend_dec allAgents a :
  Decision (levels_descend allAgents a).
Proof. unfold levels_descend. apply _. Defined.

(** The direct reports shown in the delete confirmation, and the warning
    [directReports.length > 0 && "... will become orphaned"]. *)
Definition orphanWarning (allAgents : list PennyekartAgent)
    (agent : PennyekartAgent) : option nat :=
  let directReports := directReportsOf allAgents agent in
  if decide (0 < length directReports) then Some (length directReports) else None.

(** Modelled from the spec: the delete action behind [onDelete] (the panel
    only receives the callback).  It removes the row of the agent and
    touches no other row. *)
Definition deleteAgent (target : string)
    (allAgents : list PennyekartAgent) : list PennyekartAgent :=
  filter (λ c, id c ≠ target) allAgents.

(** A two-agent cycle of coordinators. *)
Definition cycA : PennyekartAgent :=
  {| id := "a"; name := "A"; mobile := "1"; role := coordinator;
     parent_agent_id := Some "b"; customer_count := 0; ward := "1" |}.
Definition cycB : PennyekartAgent :=
  {| id := "b"; name := "B"; mobile := "2"; role := coordinator;
     parent_agent_id := Some "a"; customer_count := 0; ward := "2" |}.
Definition cyclic : list PennyekartAgent := [cycA; cycB].

(** The tree of the roll-up example: T > C > G > P1(5), P2(3). *)
Definition mk (i : string) (r : AgentRole) (p : option string) (n : Z) :=
  {| id := i; name := i; mobile := "0"; role := r;
     parent_agent_id := p; customer_count := n; ward := "N/A" |}.
Definition sampleT := mk "T" team_leader None 0.
Definition sampleC := mk "C" coordinator (Some "T") 0.
Definition sampleG := mk "G" group_leader (Some "C") 0.
Definition sampleP1 := mk "P1" pro (Some "G") 5.
Definition sampleP2 := mk "P2" pro (Some "G") 3.
Definition sampleTree := [sampleT; sampleC; sampleG; sampleP1; sampleP2].

End Agents.

(** ** ECMAScript values and built-ins used by the dialog *)

Module JS.

Set Warnings "-register-all".

(** A value parsed from a JSON response body. *)
Inductive Json :=
  | JNull
  | JBool (b : bool)
  | JNum (q : Q)
  | JStr (s : string)
  | JArr (items : list Json)
  | JObj (fields : gmap string Json).

(** [x?.k]: [None] is [undefined].  Only objects carry the keys read
    here; [null], [undefined] and primitives yield [undefined]. *)
Definition optGet (x : option Json) (k : string) : option Json :=
  match x with
  | Some (JObj fields) => fields !! k
  | _ => None
  end.

(** [v === s] for a string [s]. *)
Definition strictEqString (v : option Json) (s : string) : bool :=
  match v with
  | Some (JStr t) => bool_decide (t = s)
  | _ => false
  end.

(** Truthiness of an optional string ([undefined] and the empty string are
    falsy). *)
Definition truthyString (s : option string) : bool :=
  match s with
  | Some t => negb (bool_decide (t = ""))
  | None => false
  end.

(** Decimal digits of a natural number, ["0"] for zero. *)
Definition digits (n : N) : string := NilZero.string_of_uint (N.to_uint n).

Fixpoint zeros (k : nat) : string :=
  match k with
  | O => ""
  | S k' => "0" +:+ zeros k'
  end.

Definition pow10 (f : nat) : Z := (10 ^ Z.of_nat f)%Z.

(** [Number.prototype.toFixed(f)] on a finite number [x] (ECMA-262,
    21.1.3.3).  [NumberToString] is the engine's [Number::toString], which
    the standard uses for magnitudes of 10^21 and more. *)
Definition toFixed (NumberToString : Q → string) (f : nat) (x : Q) : string :=
  let s := if Qle_bool 0%Q x then "" else "-" in
  let x := Qabs x in
  let m :=
    if Qle_bool (inject_Z (10 ^ 21)%Z) x then NumberToString x
    else
      (* the integer n with n / 10^f closest to x, the larger on a tie *)
      let n := Qfloor (x * inject_Z (pow10 f) + (1 # 2))%Q in
      let m := digits (Z.to_N n) in
      if decide (f = 0) then m
      else
        let k := String.length m in
        let m := if decide (k ≤ f) then zeros (f + 1 - k) +:+ m else m in
        let k := if decide (k ≤ f) then f + 1 else k in
        let a := String.substring 0 (k - f) m in
        let b := String.substring (k - f) f m in
        a +:+ "." +:+ b
  in
  s +:+ m.

End JS.

(** ** [RegistrationsDialog] *)

Module Prog.
(** [interface Program] *)
Record Program := {
  id : string;
  name : string;
  verification_enabled : bool
}.
End Prog.

Module Dialog.
Import JS.
Export Prog.

(** [interface Registration] *)
Record Registration := {
  id : string;
  program_id : string;
  answers : Json;
  created_at : string;
  verification_status : string;
  percentage : option Q;
  total_score : option Q;
  max_score : option Q;
  verification_scores : option (gmap string Q);
  verified_at : option string;
  verified_by : option string
}.

(** [programs.find((p) => p.id === reg.program_id)] *)
Definition findProgram (programs : list Program) (programId : string)
    : option Program :=
  List.find (λ p, bool_decide (Prog.id p = programId)) programs.

(** [program?.verification_enabled] as a condition: [undefined] is falsy. *)
Definition programVerificationEnabled (program : option Program) : bool :=
  match program with
  | Some p => verification_enabled p
  | None => false
  end.

Inductive Icon := CheckCircle2 | Clock | Star.

(** A rendered [<Badge>]: its [variant] and [className] props, the icon
    and the text after it. *)
Record Badge := {
  variant : option string;
  className : option string;
  icon : Icon;
  text : string
}.

(** The [className] conditional of the verified badge. *)
Definition verifiedBadgeClass (percentage : Q) : string :=
  if Qle_bool 70 percentage then "bg-emerald-600"
  else if Qle_bool 40 percentage then "bg-amber-600"
  else "bg-destructive".

Section Builtins.
Variable NumberToString : Q → string.
Variable getTime : string → option Z.

(** [getVerificationBadge]; [None] is the [null] it returns. *)
Definition getVerificationBadge (programs : list Program)
    (reg : Registration) : option Badge :=
  let program := findProgram programs (program_id reg) in
  if negb (programVerificationEnabled program) then None
  else if bool_decide (verification_status reg = "verified") then
    let percentage := default 0%Q (percentage reg) in
    Some {| variant := None;
            className := Some (verifiedBadgeClass percentage);
            icon := CheckCircle2;
            text := toFixed NumberToString 1 percentage +:+ "%" |}
  else
    Some {| variant := Some "secondary";
            className := None;
            icon := Clock;
            text := "Pending" |}.

(** [selectedProgram?.verification_enabled ?? false] *)
Definition verificationEnabled (programs : list Program)
    (selectedProgramId : string) : bool :=
  match findProgram programs selectedProgramId with
  | Some p => verification_enabled p
  | None => false
  end.

Definition anyVerificationEnabled (programs : list Program)
    (selectedProgramId : string) : bool :=
  if bool_decide (selectedProgramId = "all")
  then existsb verification_enabled programs
  else verificationEnabled programs selectedProgramId.

(** The status cell of a row:
    [anyVerificationEnabled && <TableCell>{getVerificationBadge(reg)}</TableCell>];
    the badge it shows, if any. *)
Definition statusCellBadge (programs : list Program)
    (selectedProgramId : string) (reg : Registration) : option Badge :=
  if anyVerificationEnabled programs selectedProgramId
  then getVerificationBadge programs reg
  else None.

(** The star button of a row, rendered under
    [program?.verification_enabled && ...]. *)
Record VerifyButton := {
  title : string;
  buttonClass : string
}.

Definition verifyAction (programs : list Program) (reg : Registration)
    : option VerifyButton :=
  let program := findProgram programs (program_id reg) in
  if programVerificationEnabled program then
    let verified := bool_decide (verification_status reg = "verified") in
    Some {| title := if verified then "View verification"
                     else "Verify registration";
            buttonClass := if verified then "text-emerald-600"
                           else "text-amber-600" |}
  else None.

(** *** [fetchRegistrations] *)

(** What one request to the [admin-registrations] function comes to: a
    body with registrations, a response that is not [ok], or a failure of
    [fetch] or of reading the body, which throws. *)
Inductive Response :=
  | Ok (regs : list Registration)
  | NotOk
  | Throws.

(** The [for (const programId of programsToFetch)] loop;
    [None] when an iteration throws. *)
Fixpoint fetchLoop (respond : string → Response)
    (programsToFetch : list string) (allRegistrations : list Registration)
    : option (list Registration) :=
  match programsToFetch with
  | [] => Some allRegistrations
  | programId :: rest =>
      match respond programId with
      | Ok regs => fetchLoop respond rest (allRegistrations ++ regs)
      | NotOk => fetchLoop respond rest allRegistrations
      | Throws => None
      end
  end.

(** [reg.answers?._fixed?.panchayath_id === filterPanchayathId] *)
Definition inPanchayath (filterPanchayathId : string) (reg : Registration)
    : bool :=
  strictEqString
    (optGet (optGet (Some (answers reg)) "_fixed") "panchayath_id")
    filterPanchayathId.

(** [new Date(r.created_at).getTime()]; [None] is [NaN]. *)
Definition createdTime (r : Registration) : option Z := getTime (created_at r).

(** The comparator
    [(a, b) => new Date(b.created_at).getTime() - new Date(a.created_at).getTime()];
    a [NaN] difference counts as [+0] in [Array.prototype.sort]. *)
Definition compareCreated (a b : Registration) : Z :=
  match createdTime b, createdTime a with
  | Some tb, Some ta => (tb - ta)%Z
  | _, _ => 0%Z
  end.

(** [Array.prototype.sort(comparefn)]: a stable sort.  [x] goes in front
    of the first element that the comparator does not put before it. *)
Fixpoint sortInsert {A} (comparefn : A → A → Z) (x : A) (l : list A) : list A :=
  match l with
  | [] => [x]
  | y :: l' =>
      if decide (comparefn x y ≤ 0)%Z then x :: y :: l'
      else y :: sortInsert comparefn x l'
  end.

Definition sort {A} (comparefn : A → A → Z) (l : list A) : list A :=
  foldr (sortInsert comparefn) [] l.

(** The component state that [fetchRegistrations] writes. *)
Record DialogState := {
  registrations : list Registration;
  isLoading : bool
}.

Definition programsToFetch (selectedProgramId : string)
    (programs : list Program) : list string :=
  if bool_decide (selectedProgramId = "all")
  then map Prog.id programs
  else [selectedProgramId].

(** The list handed to [setRegistrations] once the loop has run. *)
Definition arrange (filterPanchayathId : option string)
    (allRegistrations : list Registration) : list Registration :=
  let allRegistrations :=
    if truthyString filterPanchayathId
    then List.filter (inPanchayath (default "" filterPanchayathId)) allRegistrations
    else allRegistrations in
  sort compareCreated allRegistrations.

Definition fetchRegistrations (open : bool) (adminToken : option string)
    (selectedProgramId : string) (programs : list Program)
    (filterPanchayathId : option string) (respond : string → Response)
    (st : DialogState) : DialogState :=
  if negb open || negb (truthyString adminToken) then st
  else
    match fetchLoop respond (programsToFetch selectedProgramId programs) [] with
    | Some allRegistrations =>
        {| registrations := arrange filterPanchayathId allRegistrations;
           isLoading := false |}
    | None =>
        {| registrations := registrations st; isLoading := false |}
    end.

(** The registrations that the requests returned, in request order. *)
Fixpoint fetched (respond : string → Response) (programsToFetch : list string)
    : list Registration :=
  match programsToFetch with
  | [] => []
  | programId :: rest =>
      match respond programId with
      | Ok regs => regs ++ fetched respond rest
      | _ => fetched respond rest
      end
  end.

End Builtins.

(** Newest first. *)
Definition newerOrEqual (getTime : string → option Z) (a b : Registration) : Prop :=
  match createdTime getTime a, createdTime getTime b with
  | Some ta, Some tb => (tb ≤ ta)%Z
  | _, _ => False
  end.

(** The presentation tiers of the scoring contract and the class each is
    drawn with. *)
Inductive Tier := High | Medium | Low.

(** The rule as the contract words it: [>= 70] High, [>= 40] Medium,
    otherwise Low. *)
Definition classify (percentage : Q) : Tier :=
  if Qle_bool 70 percentage then High
  else if Qle_bool 40 percentage then Medium
  else Low.

Definition tierClass (t : Tier) : string :=
  match t with
  | High => "bg-emerald-600"
  | Medium => "bg-amber-600"
  | Low => "bg-destructive"
  end.

(** Sample rows. *)
Definition sampleProgram : Program :=
  {| Prog.id := "prog"; Prog.name := "Program"; Prog.verification_enabled := true |}.

Definition plainProgram : Program :=
  {| Prog.id := "plain"; Prog.name := "Plain"; Prog.verification_enabled := false |}.

Definition sampleReg (program : string) (created : string) (panchayath : string)
    (status : string) (pct : option Q) : Registration :=
  {| Dialog.id := created;
     program_id := program;
     answers := JObj {[ "_fixed" := JObj {[ "panchayath_id" := JStr panchayath ]} ]};
     created_at := created;
     verification_status := status;
     percentage := pct;
     total_score := None;
     max_score := None;
     verification_scores := None;
     verified_at := None;
     verified_by := None |}.

End Dialog.

(** ** The verification migration *)

Module Migration.
Import JS Dialog.

(** [ADD COLUMN verification_enabled boolean NOT NULL DEFAULT false] *)
Definition verification_enabled_default : bool := false.

(** A row inserted into [programs]; a column left out of the statement
    takes its default. *)
Definition insertProgram (id name : string) (verification_enabled : option bool)
    : Program :=
  {| Prog.id := id;
     Prog.name := name;
     Prog.verification_enabled :=
       default verification_enabled_default verification_enabled |}.

(** [ADD COLUMN verification_status text NOT NULL DEFAULT 'pending'] *)
Definition verification_status_default : string := "pending".

(** [CHECK (verification_status IN ('pending', 'verified'))] *)
Definition program_registrations_verification_status_check (s : string) : bool :=
  bool_decide (s = "pending") || bool_decide (s = "verified").

(** A row inserted into [program_registrations]: the verification columns
    all default to [NULL] except the status; the row is refused when the
    check constraint fails. *)
Definition insertRegistration (id program_id : string) (answers : Json)
    (created_at : string) (verification_status : option string)
    : option Registration :=
  let status := default verification_status_default verification_status in
  if program_registrations_verification_status_check status then
    Some {| Dialog.id := id;
            Dialog.program_id := program_id;
            Dialog.answers := answers;
            Dialog.created_at := created_at;
            Dialog.verification_status := status;
            Dialog.percentage := None;
            Dialog.total_score := None;
            Dialog.max_score := None;
            Dialog.verification_scores := None;
            Dialog.verified_at := None;
            Dialog.verified_by := None |}
  else None.

(** An [UPDATE] of a row is refused when the new row fails the check. *)
Definition updateRegistration (new : Registration) : option Registration :=
  if program_registrations_verification_status_check
       (Dialog.verification_status new)
  then Some new else None.

(** A registration as the public submission creates it: the statement
    names none of the verification columns. *)
Definition submitted (r : Registration) : Prop :=
  ∃ id program_id answers created_at,
    insertRegistration id program_id answers created_at None = Some r.

End Migration.

(** ** The scoring contract *)

Module Scoring.
Import JS Dialog.

(** Modelled from the spec: a form question, "a stable identifier, label,
    and sort position" (the type lives in the programs hook, which is not
    part of the sources at hand). *)
Record FormQuestion := {
  question_id : string;
  label : string;
  sort_order : Z
}.

Inductive ScoreError := InvalidScoreError (question : string).

(** Modelled from the spec: the result of a verification, "status =
    verified, the score map, computed aggregates, verifier identity, and
    timestamp". *)
Record VerificationResult := {
  result_status : string;
  result_scores : gmap string Q;
  result_total_score : Q;
  result_max_score : Q;
  result_percentage : Q;
  result_verified_by : string;
  result_verified_at : string
}.

Definition isInteger (v : Q) : bool := bool_decide (Qden (Qred v) = 1%positive).

(** Modelled from the spec: "each supplied score is an integer in
    [0,10]". *)
Definition validScore (v : Q) : bool :=
  isInteger v && Qle_bool 0 v && Qle_bool v 10.

(** The first supplied entry that is not a valid score. *)
Definition offendingQuestion (scoresByQuestion : gmap string Q) : option string :=
  fst <$> List.find (λ kv, negb (validScore kv.2)) (map_to_list scoresByQuestion).

(** Modelled from the spec: [sum(scores)], the sum of the supplied
    scores. *)
Definition sumScores (scoresByQuestion : gmap string Q) : Q :=
  foldr Qplus 0%Q (map snd (map_to_list scoresByQuestion)).

(** Modelled from the spec: [percentage = max_score > 0 ?
    100*total_score/max_score : 0]. *)
Definition percentageOf (total_score max_score : Q) : Q :=
  match (0 ?= max_score)%Q with
  | Lt => (100 * total_score / max_score)%Q
  | _ => 0%Q
  end.

(** Modelled from the spec: [score(registration, questions,
    scoresByQuestion)] with the caller-supplied actor and time (the
    verification component is imported by the dialog but is not part of
    the sources at hand).  Validation comes first; the aggregates are
    [total_score = sum(scores)], [max_score = 10 * count(questions)]. *)
Definition score (registration : Registration) (questions : list FormQuestion)
    (scoresByQuestion : gmap string Q) (actor now : string)
    : ScoreError + VerificationResult :=
  match offendingQuestion scoresByQuestion with
  | Some q => inl (InvalidScoreError q)
  | None =>
      let total_score := sumScores scoresByQuestion in
      let max_score := inject_Z (10 * Z.of_nat (length questions)) in
      inr {| result_status := "verified";
             result_scores := scoresByQuestion;
             result_total_score := total_score;
             result_max_score := max_score;
             result_percentage := percentageOf total_score max_score;
             result_verified_by := actor;
             result_verified_at := now |}
  end.

(** Modelled from the spec: persisting a result overwrites the
    verification fields of the registration and nothing else. *)
Definition applyResult (reg : Registration) (res : VerificationResult)
    : Registration :=
  {| Dialog.id := Dialog.id reg;
     Dialog.program_id := Dialog.program_id reg;
     Dialog.answers := Dialog.answers reg;
     Dialog.created_at := Dialog.created_at reg;
     Dialog.verification_status := result_status res;
     Dialog.percentage := Some (result_percentage res);
     Dialog.total_score := Some (result_total_score res);
     Dialog.max_score := Some (result_max_score res);
     Dialog.verification_scores := Some (result_scores res);
     Dialog.verified_at := Some (result_verified_at res);
     Dialog.verified_by := Some (result_verified_by res) |}.

(** Modelled from the spec: the verification act.  A rejected score map
    leaves the registration as it was. *)
Definition verify (reg : Registration) (questions : list FormQuestion)
    (scoresByQuestion : gmap string Q) (actor now : string)
    : Registration * option ScoreError :=
  match score reg questions scoresByQuestion actor now with
  | inl e => (reg, Some e)
  | inr res => (applyResult reg res, None)
  end.

(** The state machine of a registration: its only move is a successful
    verification act. *)
Inductive verification_step : Registration → Registration → Prop :=
  | step_verify reg questions scoresByQuestion actor now res :
      score reg questions scoresByQuestion actor now = inr res →
      verification_step reg (applyResult reg res).

(** The registrations that a submission followed by verification acts can
    come to. *)
Definition reachable (r : Registration) : Prop :=
  ∃ r0, Migration.submitted r0 ∧ rtc verification_step r0 r.

(** Every question of the set has an entry in the map and the map has no
    other entry. *)
Definition covers (questions : list FormQuestion)
    (scoresByQuestion : gmap string Q) : Prop :=
  NoDup (map question_id questions) ∧
  dom scoresByQuestion = list_to_set (map question_id questions).

Definition allScored (v : Q) (scoresByQuestion : gmap string Q) : Prop :=
  map_Forall (λ _ x, Qeq_bool x v = true) scoresByQuestion.

(** Sample data: two questions and three score maps. *)
Definition sampleQuestions : list FormQuestion :=
  [ {| question_id := "q1"; label := "Attendance"; sort_order := 1 |};
    {| question_id := "q2"; label := "Skill"; sort_order := 2 |} ].

Definition scoresAllTen : gmap string Q := {[ "q1" := 10%Q; "q2" := 10%Q ]}.
Definition scoresMixed : gmap string Q := {[ "q1" := 7%Q; "q2" := 4%Q ]}.
Definition scoresEleven : gmap string Q := {[ "q1" := 7%Q; "q2" := 11%Q ]}.

Definition pendingReg : Registration :=
  sampleReg "prog" "2026-02-03" "p1" "pending" None.

End Scoring.

(** ** More of [AgentDetailsPanel] *)

Module Panel.
Import Agents.

(** [allAgents.find(a => a.id === agent.parent_agent_id)] *)
Definition parentAgentOf (allAgents : list PennyekartAgent)
    (agent : PennyekartAgent) : option PennyekartAgent :=
  List.find (λ a, bool_decide (Some (id a) = parent_agent_id agent)) allAgents.

End Panel.

(** ** More of [RegistrationsDialog] *)

Module Views.
Import JS Dialog Scoring.

(** [programs.find((p) => p.id === programId)?.name || "Unknown Program"] *)
Definition getProgramName (programs : list Program) (programId : string)
    : string :=
  match findProgram programs programId with
  | Some p =>
      if bool_decide (Prog.name p = "") then "Unknown Program" else Prog.name p
  | None => "Unknown Program"
  end.

(** The badge of the details dialog,
    [{selectedRegDetails.percentage?.toFixed(1) || 0}%]; the number 0 is
    rendered as the text 0. *)
Definition detailsPercentText (NumberToString : Q → string)
    (reg : Registration) : string :=
  let shown :=
    match percentage reg with
    | Some p =>
        let s := toFixed NumberToString 1 p in
        if bool_decide (s = "") then "0" else s
    | None => "0"
    end in
  shown +:+ "%".

(** The condition of the "Verified" block of the details dialog. *)
Definition detailsVerifiedShown (programs : list Program)
    (reg : Registration) : bool :=
  programVerificationEnabled (findProgram programs (program_id reg))
  && bool_decide (verification_status reg = "verified").

(** The pieces of component state around the verification dialog. *)
Record ViewState := {
  selectedProgramId : string;
  shownRegistrations : list Registration;
  formQuestions : list FormQuestion;
  verifyingRegistration : option Registration
}.

(** The effect "Reset when dialog closes". *)
Definition resetOnClose (open : bool) (st : ViewState) : ViewState :=
  if open then st
  else {| selectedProgramId := "all";
          shownRegistrations := [];
          formQuestions := [];
          verifyingRegistration := None |}.

(** The effect "Fetch form questions when a specific program is
    selected"; [select] is the query on [program_form_questions], [None]
    when it yields no data. *)
Definition fetchQuestions (open : bool)
    (select : string → option (list FormQuestion)) (st : ViewState)
    : ViewState :=
  if open then
    let questions :=
      if bool_decide (selectedProgramId st = "all")
         || bool_decide (selectedProgramId st = "")
      then []
      else default [] (select (selectedProgramId st)) in
    {| selectedProgramId := selectedProgramId st;
       shownRegistrations := shownRegistrations st;
       formQuestions := questions;
       verifyingRegistration := verifyingRegistration st |}
  else st.

(** [handleVerify] *)
Definition handleVerify (reg : Registration) (st : ViewState) : ViewState :=
  {| selectedProgramId := selectedProgramId st;
     shownRegistrations := shownRegistrations st;
     formQuestions := formQuestions st;
     verifyingRegistration := Some reg |}.

(** The props handed to [<RegistrationVerification>]. *)
Record VerificationProps := {
  prop_registration : option Registration;
  prop_questions : list FormQuestion;
  prop_open : bool
}.

Definition verificationProps (st : ViewState) : VerificationProps :=
  {| prop_registration := verifyingRegistration st;
     prop_questions := formQuestions st;
     prop_open := bool_decide (is_Some (verifyingRegistration st)) |}.

End Views.

(** ** [ModuleManager] and the tabs of [ProgramDetail] *)

Module Modules.

(** The fields of [ProgramModule] that the manager reads. *)
Record ProgramModule := {
  id : string;
  module_type : string;
  is_published : bool
}.

(** [modules.find((m) => m.module_type === type)] *)
Definition getModule (modules : list ProgramModule) (type : string)
    : option ProgramModule :=
  List.find (λ m, bool_decide (module_type m = type)) modules.

(** A request to the [admin-modules] function: the action and its data. *)
Inductive ApiCall :=
  | ApiDelete (id : string)
  | ApiCreate (program_id module_type : string) (is_published : bool)
  | ApiUpdate (id : string) (is_published : bool).

(** What [supabase.functions.invoke] comes to: a response with
    [response.error] (its [message], empty when it has none) and
    [response.data?.error], or a rejection, by an [Error] with a message
    or by some other value. *)
Inductive InvokeResult :=
  | Responded (error : option string) (data_error : option string)
  | Rejected (err : option string).

(** How [callAdminModulesApi] ends: it returns the data, or throws; the
    thrown value is an [Error] with a message, or ([None]) something
    else. *)
Inductive ApiOutcome :=
  | Returned
  | Threw (message : option string).

Definition callAdminModulesApi (response : InvokeResult) : ApiOutcome :=
  match response with
  | Rejected err => Threw err
  | Responded (Some message) _ =>
      Threw (Some (if bool_decide (message = "") then "API call failed"
                   else message))
  | Responded None (Some e) =>
      if bool_decide (e = "") then Returned else Threw (Some e)
  | Responded None None => Returned
  end.

Record Toast := {
  toast_title : string;
  toast_description : string;
  toast_variant : option string
}.

(** What a handler has done when it is through. *)
Record Handled := {
  request : ApiCall;
  toast : Toast;
  modulesChanged : bool;
  isUpdating : option string
}.

Section Handlers.
Variable toUpperCase : string → string.

(** [type.charAt(0).toUpperCase() + type.slice(1)] *)
Definition capitalize (type : string) : string :=
  match type with
  | EmptyString => toUpperCase ""
  | String c rest => toUpperCase (String c "") +:+ rest
  end.

(** The [catch] and [finally] blocks shared by the two handlers. *)
Definition settle (call : ApiCall) (outcome : ApiOutcome) (done : Toast)
    (fallback : string) : Handled :=
  match outcome with
  | Returned =>
      {| request := call; toast := done; modulesChanged := true;
         isUpdating := None |}
  | Threw err =>
      {| request := call;
         toast := {| toast_title := "Error";
                     toast_description := default fallback err;
                     toast_variant := Some "destructive" |};
         modulesChanged := false;
         isUpdating := None |}
  end.

(** [handleModuleToggle]; [invoke] answers the request it issues. *)
Definition handleModuleToggle (programId : string)
    (modules : list ProgramModule) (invoke : ApiCall → InvokeResult)
    (type : string) : Handled :=
  match getModule modules type with
  | Some existingModule =>
      let call := ApiDelete (id existingModule) in
      settle call (callAdminModulesApi (invoke call))
        {| toast_title := "Module disabled";
           toast_description := capitalize type +:+ " module has been removed.";
           toast_variant := None |}
        "Failed to update module"
  | None =>
      let call := ApiCreate programId type false in
      settle call (callAdminModulesApi (invoke call))
        {| toast_title := "Module enabled";
           toast_description := capitalize type +:+ " module has been added.";
           toast_variant := None |}
        "Failed to update module"
  end.

(** [handlePublishToggle] *)
Definition handlePublishToggle (invoke : ApiCall → InvokeResult)
    (moduleId : string) (currentStatus : bool) : Handled :=
  let call := ApiUpdate moduleId (negb currentStatus) in
  settle call (callAdminModulesApi (invoke call))
    {| toast_title := if negb currentStatus then "Module published"
                      else "Module unpublished";
       toast_description :=
         if negb currentStatus
         then "This module is now visible to the public."
         else "This module is now hidden from the public.";
       toast_variant := None |}
    "Failed to update publish status".

End Handlers.

(** One entry of [MODULE_TYPES.map]: [isEnabled = !!module],
    [isPublished = module?.is_published || false]. *)
Definition isEnabled (modules : list ProgramModule) (type : string) : bool :=
  bool_decide (is_Some (getModule modules type)).

Definition isPublished (modules : list ProgramModule) (type : string) : bool :=
  match getModule modules type with
  | Some m => is_published m
  | None => false
  end.

(** The badge beside the label, shown when enabled. *)
Definition moduleBadge (modules : list ProgramModule) (type : string)
    : option string :=
  if isEnabled modules type
  then Some (if isPublished modules type then "Published" else "Draft")
  else None.

(** The request the publish switch of a row issues when flipped; the
    switch is rendered only for an enabled module. *)
Definition publishSwitchCall (modules : list ProgramModule) (type : string)
    : option ApiCall :=
  match getModule modules type with
  | Some m => Some (ApiUpdate (id m) (negb (isPublished modules type)))
  | None => None
  end.

(** [program.modules?.some((m) => m.module_type === type)] of
    [ProgramDetail]; an absent [modules] gives [undefined], falsy. *)
Definition hasModule (modules : option (list ProgramModule)) (type : string)
    : bool :=
  match modules with
  | Some ms => existsb (λ m, bool_decide (module_type m = type)) ms
  | None => false
  end.

(** The triggers of the tab list, in order. *)
Definition tabs (modules : option (list ProgramModule)) : list string :=
  ["modules"]
  ++ (if hasModule modules "announcement" then ["announcements"] else [])
  ++ (if hasModule modules "registration" then ["registration"] else [])
  ++ (if hasModule modules "advertisement" then ["advertisements"] else [])
  ++ (if hasModule modules "registration" then ["registrations"] else []).

(** [modules={program.modules || []}], the prop of [<ModuleManager>]. *)
Definition managerModules (modules : option (list ProgramModule))
    : list ProgramModule :=
  default [] modules.

End Modules.

(** ** [ProgramDetail]: editing, toggling and deleting a program *)

Module ProgramEdit.
Import Modules.

(** The fields of the program that the page reads;
    [verification_enabled] is read through a cast and may be missing. *)
Record ProgramRow := {
  id : string;
  name : string;
  description : option string;
  start_date : option string;
  end_date : option string;
  is_active : bool;
  verification_enabled : option bool
}.

(** The edit form and the flags beside it. *)
Record EditState := {
  isEditDialogOpen : bool;
  isUpdating : bool;
  editName : string;
  editDescription : string;
  editStartDate : string;
  editEndDate : string;
  editIsActive : bool;
  editVerificationEnabled : bool
}.

(** The [useState] initial values. *)
Definition initialState : EditState :=
  {| isEditDialogOpen := false; isUpdating := false;
     editName := ""; editDescription := "";
     editStartDate := ""; editEndDate := "";
     editIsActive := true; editVerificationEnabled := false |}.

(** [x || ""] on an optional string. *)
Definition orEmpty (x : option string) : string := default "" x.

(** [s || null] on a string. *)
Definition orNull (s : string) : option string :=
  if bool_decide (s = "") then None else Some s.

(** [openEditDialog] *)
Definition openEditDialog (program : option ProgramRow) (st : EditState)
    : EditState :=
  match program with
  | Some p =>
      {| isEditDialogOpen := true;
         isUpdating := isUpdating st;
         editName := name p;
         editDescription := orEmpty (description p);
         editStartDate := orEmpty (start_date p);
         editEndDate := orEmpty (end_date p);
         editIsActive := is_active p;
         editVerificationEnabled := default false (verification_enabled p) |}
  | None => st
  end.

(** The object given to [.update(...)], sent [.eq("id", program.id)]. *)
Record UpdatePayload := {
  target : string;
  new_name : string;
  new_description : option string;
  new_start_date : option string;
  new_end_date : option string;
  new_is_active : bool;
  new_verification_enabled : bool
}.

(** What [handleUpdateProgram] has done when it is through. *)
Record Updated := {
  sent : option UpdatePayload;
  update_toast : option Toast;
  refetched : bool;
  after : EditState
}.

Definition withFlags (open updating : bool) (st : EditState) : EditState :=
  {| isEditDialogOpen := open; isUpdating := updating;
     editName := editName st; editDescription := editDescription st;
     editStartDate := editStartDate st; editEndDate := editEndDate st;
     editIsActive := editIsActive st;
     editVerificationEnabled := editVerificationEnabled st |}.

Section Trim.
Variable trim : string → string.

Definition updatePayload (p : ProgramRow) (st : EditState) : UpdatePayload :=
  {| target := id p;
     new_name := trim (editName st);
     new_description := orNull (trim (editDescription st));
     new_start_date := orNull (editStartDate st);
     new_end_date := orNull (editEndDate st);
     new_is_active := editIsActive st;
     new_verification_enabled := editVerificationEnabled st |}.

(** [handleUpdateProgram]; [update] answers with the [error] of the
    response, if any, given by its [message] (empty when it has none). *)
Definition handleUpdateProgram (program : option ProgramRow)
    (update : UpdatePayload → option string) (st : EditState) : Updated :=
  match program with
  | None => {| sent := None; update_toast := None; refetched := false; after := st |}
  | Some p =>
      let payload := updatePayload p st in
      match update payload with
      | None =>
          {| sent := Some payload;
             update_toast :=
               Some {| toast_title := "Program updated";
                       toast_description := "Program details have been saved.";
                       toast_variant := None |};
             refetched := true;
             after := withFlags false false st |}
      | Some message =>
          {| sent := Some payload;
             update_toast :=
               Some {| toast_title := "Error";
                       toast_description :=
                         if bool_decide (message = "")
                         then "Failed to update program" else message;
                       toast_variant := Some "destructive" |};
             refetched := false;
             after := withFlags (isEditDialogOpen st) false st |}
      end
  end.

End Trim.

(** [toggleProgramStatus]: the new [is_active] it sends and the title of
    the toast on success. *)
Definition toggleProgramStatus (p : ProgramRow) : bool * string :=
  (negb (is_active p),
   if is_active p then "Program deactivated" else "Program activated").

End ProgramEdit.

(** ** [ClustersManagement] *)

Module Clusters.
Import Modules.

(** [interface Cluster], the fields used by the table. *)
Record Cluster := {
  id : string;
  name : string;
  name_ml : option string;
  panchayath_id : string;
  is_active : option bool
}.

(** Truthiness of [boolean | null]. *)
Definition truthy (b : option bool) : bool := default false b.

(** The status pill and the button of a row. *)
Definition statusText (c : Cluster) : string :=
  if truthy (is_active c) then "Active" else "Inactive".

Definition buttonText (c : Cluster) : string :=
  if truthy (is_active c) then "Deactivate" else "Activate".

(** What [toggleClusterStatus] has done: the update it sends, the toast
    and whether it fetches the clusters again. *)
Record Toggled := {
  toggled_id : string;
  toggled_is_active : bool;
  toggled_toast : Toast;
  toggled_refetch : bool
}.

(** [toggleClusterStatus(id, currentStatus)]; [failed] tells whether the
    response carries an error. *)
Definition toggleClusterStatus (failed : bool) (id : string)
    (currentStatus : bool) : Toggled :=
  {| toggled_id := id;
     toggled_is_active := negb currentStatus;
     toggled_toast :=
       if failed
       then {| toast_title := "Error";
               toast_description := "Failed to update cluster status";
               toast_variant := Some "destructive" |}
       else {| toast_title := "Status updated";
               toast_description :=
                 "Cluster has been "
                 +:+ (if negb currentStatus then "activated" else "deactivated")
                 +:+ ".";
               toast_variant := None |};
     toggled_refetch := negb failed |}.

(** The click on the button of a row:
    [toggleClusterStatus(cluster.id, cluster.is_active ?? true)]. *)
Definition clickToggle (failed : bool) (c : Cluster) : Toggled :=
  toggleClusterStatus failed (id c) (default true (is_active c)).

(** The form of the create dialog. *)
Record ClusterForm := {
  clusterName : string;
  clusterNameMl : string;
  selectedPanchayath : string;
  error : string;
  isDialogOpen : bool;
  isSubmitting : bool
}.

(** The row given to [.insert(...)]. *)
Record NewCluster := {
  ins_name : string;
  ins_name_ml : option string;
  ins_panchayath_id : string
}.

Record Created := {
  inserted : option NewCluster;
  created_toast : bool;
  created_refetch : bool;
  form_after : ClusterForm
}.

Section Trim.
Variable trim : string → string.

(** [handleCreateCluster]; [insert] answers with the [insertError] of
    the response, if any, given by its [message] (empty when none). *)
Definition handleCreateCluster (insert : NewCluster → option string)
    (form : ClusterForm) : Created :=
  let failedWith (row : option NewCluster) (message : string) :=
    {| inserted := row; created_toast := false; created_refetch := false;
       form_after :=
         {| clusterName := clusterName form;
            clusterNameMl := clusterNameMl form;
            selectedPanchayath := selectedPanchayath form;
            error := if bool_decide (message = "")
                     then "Failed to create cluster" else message;
            isDialogOpen := isDialogOpen form;
            isSubmitting := false |} |} in
  if bool_decide (selectedPanchayath form = "")
  then failedWith None "Please select a panchayath"
  else
    let row :=
      {| ins_name := trim (clusterName form);
         ins_name_ml :=
           (let ml := trim (clusterNameMl form) in
            if bool_decide (ml = "") then None else Some ml);
         ins_panchayath_id := selectedPanchayath form |} in
    match insert row with
    | Some message => failedWith (Some row) message
    | None =>
        {| inserted := Some row; created_toast := true; created_refetch := true;
           form_after :=
             {| clusterName := ""; clusterNameMl := "";
                selectedPanchayath := ""; error := "";
                isDialogOpen := false; isSubmitting := false |} |}
    end.

End Trim.

End Clusters.

(** ** Row-level policies of the migrations *)

Module Policies.

Inductive app_role := admin | super_admin.

(** SQL [=] on nullable values as a condition: true only when both sides
    are present and equal. *)
Definition sql_eq (a b : option string) : bool :=
  match a, b with
  | Some x, Some y => bool_decide (x = y)
  | _, _ => false
  end.

Record ProgramRef := {
  id : string;
  division_id : option string
}.

Section Session.
(** [has_role(auth.uid(), role)] and [get_user_division(auth.uid())] for
    the user of the session; both are functions of the database. *)
Variable has_role : app_role → bool.
Variable user_division : option string.

(** "Admins can update registrations for verification": the [USING]
    expression for a registration with the given [program_id]. *)
Definition admins_can_update (programs : list ProgramRef) (program_id : string)
    : bool :=
  has_role admin
  && existsb (λ p, bool_decide (id p = program_id)
                   && sql_eq (division_id p) user_division) programs.

(** "Super admin can update all registrations". *)
Definition super_admin_can_update : bool := has_role super_admin.

(** The two update policies are permissive: either one lets the row through. *)
Definition update_allowed (programs : list ProgramRef) (program_id : string)
    : bool :=
  admins_can_update programs program_id || super_admin_can_update.

(** "Admins can manage clusters in their division": the [USING]
    expression for a cluster with the given [panchayath_id], over the ids
    of the panchayath rows, and the [WITH CHECK] expression. *)
Definition clusters_using (panchayath_ids : list string)
    (panchayath_id : option string) : bool :=
  has_role admin
  && existsb (λ x, sql_eq (Some x) panchayath_id)
       (List.filter (λ pid, sql_eq (Some pid) panchayath_id) panchayath_ids).

Definition clusters_with_check : bool := has_role admin.

End Session.

End Policies.

(** * Properties *)

(** ** The customer roll-up *)

Module AgentsFacts.
Import Agents.

Example rollup_G : calculateTotalCustomers 4 sampleTree sampleG = Some 8%Z.
Proof. reflexivity. Qed.

Example rollup_T : calculateTotalCustomers 4 sampleTree sampleT = Some 8%Z.
Proof. reflexivity. Qed.

Example rollup_T_shallow : calculateTotalCustomers 3 sampleTree sampleT = None.
Proof. reflexivity. Qed.

Example rollup_pro_7 :
  calculateTotalCustomers 1 [] (mk "P" pro None 7) = Some 7%Z.
Proof. reflexivity. Qed.

Lemma directReportsOf_spec allAgents a c :
  c ∈ directReportsOf allAgents a ↔
  c ∈ allAgents ∧ parent_agent_id c = Some (id a).
Proof. unfold directReportsOf. rewrite list_elem_of_filter. tauto. Qed.

Lemma foldl_addChild_None f l : foldl (addChild f) None l = None.
Proof. induction l as [|c l IH]; simpl; auto. Qed.

(** The reduction returns exactly when every call in it returns, and
    then with the running sum of the returned values. *)
Lemma foldl_addChild_Some f l : ∀ z v,
  foldl (addChild f) (Some z) l = Some v ↔
  ∃ vs, Forall2 (λ c x, f c = Some x) l vs ∧ v = foldl Z.add z vs.
Proof.
  induction l as [|c l IH]; intros z v; simpl.
  - split.
    + intros [= <-]. exists []. split; [constructor | reflexivity].
    + intros (vs & Hvs & ->). inversion Hvs; subst. reflexivity.
  - destruct (f c) as [x|] eqn:Hc.
    + rewrite IH. split.
      * intros (vs & Hvs & ->). exists (x :: vs). split; [by constructor | done].
      * intros (vs & Hvs & ->). inversion Hvs as [|? y ? vs' Hy Hrest]; subst.
        exists vs'. split; [done|]. simpl. congruence.
    + rewrite foldl_addChild_None. split; [done|].
      intros (vs & Hvs & _). inversion Hvs; subst. congruence.
Qed.

Lemma foldl_addChild_total f l : ∀ z,
  Forall (λ c, is_Some (f c)) l → is_Some (foldl (addChild f) (Some z) l).
Proof.
  induction l as [|c l IH]; intros z Hall; simpl; [by eexists|].
  apply Forall_cons in Hall as [[x Hx] Hl]. rewrite Hx. by apply IH.
Qed.

(** One frame of the recursion. *)
Lemma calculateTotalCustomers_unfold d allAgents a :
  calculateTotalCustomers (S d) allAgents a =
  if decide (role a = pro) then Some (customer_count a)
  else foldl (addChild (calculateTotalCustomers d allAgents)) (Some 0%Z)
         (directReportsOf allAgents a).
Proof. reflexivity. Qed.

(** A call that has returned returns the same with more room. *)
Lemma calculateTotalCustomers_S allAgents : ∀ d a v,
  calculateTotalCustomers d allAgents a = Some v →
  calculateTotalCustomers (S d) allAgents a = Some v.
Proof.
  induction d as [|d IH]; intros a v; [done|].
  rewrite !(calculateTotalCustomers_unfold _ allAgents a).
  destruct (decide (role a = pro)); [done|].
  rewrite !foldl_addChild_Some. intros (vs & Hvs & ->).
  exists vs. split; [|done].
  eapply Forall2_impl; [exact Hvs|]. intros c x. apply IH.
Qed.

Lemma calculateTotalCustomers_mono allAgents d d' a v :
  d ≤ d' →
  calculateTotalCustomers d allAgents a = Some v →
  calculateTotalCustomers d' allAgents a = Some v.
Proof.
  induction 1 as [|d' _ IH]; [done|].
  intros H. by apply calculateTotalCustomers_S, IH.
Qed.

Lemma returns_functional allAgents a v w :
  returns allAgents a v → returns allAgents a w → v = w.
Proof.
  intros [d Hd] [e He].
  apply (calculateTotalCustomers_mono _ _ (d `max` e)) in Hd; [|lia].
  apply (calculateTotalCustomers_mono _ _ (d `max` e)) in He; [|lia].
  congruence.
Qed.

(** Calls that each return do so within a common depth. *)
Lemma returns_common_depth allAgents l vs :
  Forall2 (returns allAgents) l vs →
  ∃ d, Forall2 (λ c x, calculateTotalCustomers d allAgents c = Some x) l vs.
Proof.
  induction 1 as [|c x l vs [d Hd] _ [e He]]; [exists 0; constructor|].
  exists (d `max` e). constructor.
  - eapply calculateTotalCustomers_mono; [|exact Hd]. lia.
  - eapply Forall2_impl; [exact He|]. intros c' x'.
    apply calculateTotalCustomers_mono. lia.
Qed.

Lemma returns_pro allAgents a v :
  role a = pro → returns allAgents a v ↔ v = customer_count a.
Proof.
  intros Hpro. split.
  - intros [[|d] Hd]; [done|].
    rewrite calculateTotalCustomers_unfold, decide_True in Hd by done. congruence.
  - intros ->. exists 1. simpl. by rewrite decide_True.
Qed.

Lemma returns_inner allAgents a v :
  role a ≠ pro →
  returns allAgents a v ↔
  ∃ vs, Forall2 (returns allAgents) (directReportsOf allAgents a) vs ∧
        v = sumZ vs.
Proof.
  intros Hrole. split.
  - intros [[|d] Hd]; [done|].
    rewrite calculateTotalCustomers_unfold, decide_False in Hd by done.
    apply foldl_addChild_Some in Hd as (vs & Hvs & ->).
    exists vs. split; [|done].
    eapply Forall2_impl; [exact Hvs|]. intros c x Hc. by exists d.
  - intros (vs & Hvs & ->).
    apply returns_common_depth in Hvs as [d Hd].
    exists (S d). rewrite calculateTotalCustomers_unfold, decide_False by done.
    apply foldl_addChild_Some. by exists vs.
Qed.

(** C2: for a [pro] node [calculateTotalCustomers] returns the node's own
    [customer_count]; for any other node it returns the sum of what it
    returns on the direct children, which are exactly the agents of the
    list whose [parent_agent_id] is the node's [id]; so it returns 0 for a
    [pro] node with [customer_count] 0 and for a non-[pro] node without
    children. *)
Theorem C2_rollup_equations allAgents a :
  (∀ c, c ∈ directReportsOf allAgents a ↔
        c ∈ allAgents ∧ parent_agent_id c = Some (id a)) ∧
  (role a = pro → ∀ v, returns allAgents a v ↔ v = customer_count a) ∧
  (role a ≠ pro → ∀ v,
     returns allAgents a v ↔
     ∃ vs, Forall2 (returns allAgents) (directReportsOf allAgents a) vs ∧
           v = sumZ vs) ∧
  (role a = pro → customer_count a = 0%Z → returns allAgents a 0) ∧
  (role a ≠ pro → directReportsOf allAgents a = [] → returns allAgents a 0).
Proof.
  split; [intros c; apply directReportsOf_spec|].
  split; [intros Hpro v; by apply returns_pro|].
  split; [intros Hrole v; by apply returns_inner|].
  split.
  - intros Hpro Hzero. apply returns_pro; [done|]. by rewrite Hzero.
  - intros Hrole Hnone. apply returns_inner; [done|].
    exists []. rewrite Hnone. split; [constructor | reflexivity].
Qed.

Lemma C2_rollup_equations_witness :
  returns sampleTree sampleP1 5 ∧ returns [sampleT] sampleG 0.
Proof.
  split.
  - destruct (C2_rollup_equations sampleTree sampleP1) as (_ & Hpro & _).
    apply Hpro; reflexivity.
  - destruct (C2_rollup_equations [sampleT] sampleG) as (_ & _ & _ & _ & Hnone).
    apply Hnone; [discriminate | reflexivity].
Defined.

(** A call in the reduction that does not return keeps the reduction from
    returning. *)
Lemma foldl_addChild_stuck f l c z :
  c ∈ l → f c = None → foldl (addChild f) z l = None.
Proof.
  revert z. induction l as [|x l IH]; intros z Hin Hc.
  - by apply elem_of_nil in Hin.
  - apply elem_of_cons in Hin as [<-|Hin]; simpl.
    + destruct z; simpl; rewrite ?Hc; apply foldl_addChild_None.
    + by apply IH.
Qed.

(** No depth is enough for a node of a set of non-[pro] agents in which
    every member has a direct report that is a member again. *)
Lemma never_returns_in_closed_set allAgents (S : PennyekartAgent → Prop) :
  (∀ x, S x → role x ≠ pro ∧ ∃ c, c ∈ directReportsOf allAgents x ∧ S c) →
  ∀ d a, S a → calculateTotalCustomers d allAgents a = None.
Proof.
  intros Hclosed. induction d as [|d IH]; intros a Ha; [done|].
  destruct (Hclosed a Ha) as (Hrole & c & Hc & HSc).
  rewrite calculateTotalCustomers_unfold, decide_False by done.
  eapply foldl_addChild_stuck; [exact Hc|]. by apply IH.
Qed.

Lemma levels_descend_spec allAgents a p c :
  levels_descend allAgents a →
  p ∈ a :: allAgents → c ∈ allAgents → parent_agent_id c = Some (id p) →
  role_level (role c) < role_level (role p).
Proof.
  unfold levels_descend. rewrite Forall_forall. intros H Hp Hc.
  specialize (H p Hp). rewrite Forall_forall in H. by apply H.
Qed.

Lemma levels_descend_child allAgents a c :
  levels_descend allAgents a → c ∈ allAgents → levels_descend allAgents c.
Proof.
  unfold levels_descend. intros H Hc.
  apply Forall_cons in H as [_ H]. apply Forall_cons. split; [|done].
  rewrite Forall_forall in H. by apply H.
Qed.

(** With descending levels, a depth above the node's level is enough. *)
Lemma returns_within_level allAgents : ∀ d a,
  levels_descend allAgents a → role_level (role a) < d →
  is_Some (calculateTotalCustomers d allAgents a).
Proof.
  induction d as [|d IH]; intros a Hdesc Hlvl; [lia|].
  rewrite calculateTotalCustomers_unfold.
  destruct (decide (role a = pro)); [by eexists|].
  apply foldl_addChild_total, Forall_forall. intros c Hc.
  apply directReportsOf_spec in Hc as [Hin Hparent].
  apply IH; [by eapply levels_descend_child|].
  assert (role_level (role c) < role_level (role a)); [|lia].
  eapply levels_descend_spec; [exact Hdesc| |done..]. by left.
Qed.

Lemma role_level_bound r : role_level r < role_levels.
Proof. destruct r; unfold role_levels; simpl; lia. Qed.

(** C3, as the code has it: [calculateTotalCustomers] bounds nothing and
    raises no cycle error.  Where every parent link goes down the role
    order it returns within as many nested calls as there are role levels;
    on a node that lies on a cycle of non-[pro] agents (more generally in a
    set of non-[pro] agents closed under taking some direct report) it
    never returns. *)
Theorem C3_terminates_iff_levels_descend allAgents a :
  (levels_descend allAgents a →
   ∃ v, calculateTotalCustomers role_levels allAgents a = Some v) ∧
  (∀ S : PennyekartAgent → Prop, S a →
     (∀ x, S x → role x ≠ pro ∧ ∃ c, c ∈ directReportsOf allAgents x ∧ S c) →
     ∀ v, ¬ returns allAgents a v).
Proof.
  split.
  - intros Hdesc. apply returns_within_level; [done | apply role_level_bound].
  - intros S Ha Hclosed v [d Hd].
    by rewrite (never_returns_in_closed_set allAgents S Hclosed d a Ha) in Hd.
Qed.

Lemma cyclic_closed x :
  x = cycA ∨ x = cycB →
  role x ≠ pro ∧ ∃ c, c ∈ directReportsOf cyclic x ∧ (c = cycA ∨ c = cycB).
Proof.
  intros [-> | ->]; (split; [discriminate|]).
  - exists cycB. split; [|by right]. vm_compute. by left.
  - exists cycA. split; [|by left]. vm_compute. by left.
Qed.

Lemma C3_terminates_iff_levels_descend_witness :
  (∃ v, calculateTotalCustomers role_levels sampleTree sampleT = Some v) ∧
  ¬ returns cyclic cycA 0.
Proof.
  split.
  - apply (proj1 (C3_terminates_iff_levels_descend sampleTree sampleT)).
    apply (bool_decide_unpack _). vm_compute. exact I.
  - apply (proj2 (C3_terminates_iff_levels_descend cyclic cycA)
             (λ x, x = cycA ∨ x = cycB)); [by left | apply cyclic_closed].
Defined.

(** C3 as stated fails: on the two-agent cycle the call from [cycA] does
    not terminate, whatever depth it is given. *)
Lemma C3_cycle_does_not_terminate :
  ¬ ∃ depth v, calculateTotalCustomers depth cyclic cycA = Some v.
Proof.
  intros (d & v & Hd).
  rewrite (never_returns_in_closed_set cyclic (λ x, x = cycA ∨ x = cycB)) in Hd.
  - discriminate.
  - apply cyclic_closed.
  - by left.
Qed.

(** ** Deleting an agent *)

Lemma deleteAgent_spec target allAgents x :
  x ∈ deleteAgent target allAgents ↔ x ∈ allAgents ∧ id x ≠ target.
Proof. unfold deleteAgent. rewrite list_elem_of_filter. tauto. Qed.

(** The rows that stay keep their order. *)
Lemma deleteAgent_sublist target allAgents :
  sublist (deleteAgent target allAgents) allAgents.
Proof. apply sublist_filter. Qed.

(** C8: deleting an agent with children removes the rows with that
    agent's [id] and no other row; each child stays in the list as the
    record it was, so its [parent_agent_id] still names the deleted agent,
    which no remaining row has as [id]. *)
Theorem C8_delete_orphans_children allAgents a c :
  c ∈ allAgents → parent_agent_id c = Some (id a) → id c ≠ id a →
  (∀ x, x ∈ deleteAgent (id a) allAgents ↔ x ∈ allAgents ∧ id x ≠ id a) ∧
  c ∈ deleteAgent (id a) allAgents ∧
  c ∈ directReportsOf (deleteAgent (id a) allAgents) a ∧
  (∀ p, p ∈ deleteAgent (id a) allAgents → parent_agent_id c ≠ Some (id p)) ∧
  is_Some (orphanWarning allAgents a).
Proof.
  intros Hin Hparent Hne.
  assert (c ∈ deleteAgent (id a) allAgents) as Hkept by by apply deleteAgent_spec.
  split; [intros x; apply deleteAgent_spec|].
  split; [done|].
  split; [by apply directReportsOf_spec|].
  split.
  - intros p Hp%deleteAgent_spec. rewrite Hparent. intros [= Heq]. by destruct Hp.
  - unfold orphanWarning.
    assert (c ∈ directReportsOf allAgents a) as Hc by by apply directReportsOf_spec.
    destruct (directReportsOf allAgents a) as [|y l]; [by apply elem_of_nil in Hc|].
    destruct (decide (0 < length (y :: l))) as [|Hlen]; [by eexists|].
    simpl in Hlen. lia.
Qed.

Lemma C8_delete_orphans_children_witness :
  sampleP1 ∈ deleteAgent "G" sampleTree ∧
  parent_agent_id sampleP1 = Some "G" ∧
  deleteAgent "G" sampleTree = [sampleT; sampleC; sampleP1; sampleP2].
Proof.
  split; [|split; reflexivity].
  apply (C8_delete_orphans_children sampleTree sampleG sampleP1);
    [vm_compute; do 3 right; by left | reflexivity | discriminate].
Defined.

End AgentsFacts.

(** ** The verification badge and the verify action *)

Module BadgeFacts.
Import JS Dialog Migration.

Lemma Qle_bool_false (x y : Q) : Qle_bool x y = false ↔ (y < x)%Q.
Proof.
  split.
  - intros H. apply Qnot_le_lt. intros Hle%Qle_bool_iff. congruence.
  - intros H. destruct (Qle_bool x y) eqn:E; [|done].
    apply Qle_bool_iff in E. by apply Qlt_not_le in H.
Qed.

(** The class of the verified badge, case by case. *)
Lemma verifiedBadgeClass_cases (p : Q) :
  ((70 <= p)%Q ∧ verifiedBadgeClass p = "bg-emerald-600") ∨
  ((40 <= p)%Q ∧ (p < 70)%Q ∧ verifiedBadgeClass p = "bg-amber-600") ∨
  ((p < 40)%Q ∧ verifiedBadgeClass p = "bg-destructive").
Proof.
  unfold verifiedBadgeClass.
  destruct (Qle_bool 70 p) eqn:H70.
  - left. by apply Qle_bool_iff in H70.
  - apply Qle_bool_false in H70. destruct (Qle_bool 40 p) eqn:H40.
    + right; left. by apply Qle_bool_iff in H40.
    + right; right. by apply Qle_bool_false in H40.
Qed.

(** The inline conditional of the badge is the contract's [classify]. *)
Lemma verifiedBadgeClass_classify (p : Q) :
  verifiedBadgeClass p = tierClass (classify p).
Proof.
  unfold verifiedBadgeClass, classify.
  by destruct (Qle_bool 70 p), (Qle_bool 40 p).
Qed.

Lemma classify_High (p : Q) : classify p = High ↔ (70 <= p)%Q.
Proof.
  unfold classify. destruct (Qle_bool 70 p) eqn:H70.
  - apply Qle_bool_iff in H70. done.
  - apply Qle_bool_false in H70.
    split; [by destruct (Qle_bool 40 p) | intros H; by apply Qlt_not_le in H70].
Qed.

Lemma classify_Medium (p : Q) : classify p = Medium ↔ (40 <= p)%Q ∧ (p < 70)%Q.
Proof.
  unfold classify. destruct (Qle_bool 70 p) eqn:H70.
  - apply Qle_bool_iff in H70.
    split; [done | intros [_ H]; by apply Qlt_not_le in H].
  - apply Qle_bool_false in H70. destruct (Qle_bool 40 p) eqn:H40.
    + apply Qle_bool_iff in H40. done.
    + apply Qle_bool_false in H40.
      split; [done | intros [H _]; by apply Qlt_not_le in H40].
Qed.

Lemma classify_Low (p : Q) : classify p = Low ↔ (p < 40)%Q.
Proof.
  unfold classify. destruct (Qle_bool 70 p) eqn:H70.
  - apply Qle_bool_iff in H70. split; [done|]. intros H.
    exfalso. apply (Qlt_not_le _ _ H). by apply Qle_trans with 70%Q.
  - destruct (Qle_bool 40 p) eqn:H40.
    + apply Qle_bool_iff in H40. split; [done | intros H; by apply Qlt_not_le in H].
    + by apply Qle_bool_false in H40.
Qed.

Lemma getVerificationBadge_verified NumberToString programs reg :
  programVerificationEnabled (findProgram programs (program_id reg)) = true →
  verification_status reg = "verified" →
  getVerificationBadge NumberToString programs reg =
  Some {| variant := None;
          className := Some (verifiedBadgeClass (default 0%Q (percentage reg)));
          icon := CheckCircle2;
          text := toFixed NumberToString 1 (default 0%Q (percentage reg)) +:+ "%" |}.
Proof.
  intros Hen Hst. unfold getVerificationBadge. rewrite Hen, Hst. reflexivity.
Qed.

(** C1: the class that displays a verified registration follows the rule
    [percentage >= 70] High, otherwise [percentage >= 40] Medium, otherwise
    Low, for every percentage; 39.9 is Low, 40.0 Medium, 69.9 Medium and
    70.0 High. *)
Theorem C1_badge_follows_classify NumberToString programs reg (p : Q) :
  programVerificationEnabled (findProgram programs (program_id reg)) = true →
  verification_status reg = "verified" →
  percentage reg = Some p →
  (∃ b, getVerificationBadge NumberToString programs reg = Some b ∧
        className b = Some (tierClass (classify p)) ∧
        (className b = Some "bg-emerald-600" ↔ (70 <= p)%Q) ∧
        (className b = Some "bg-amber-600" ↔ (40 <= p)%Q ∧ (p < 70)%Q) ∧
        (className b = Some "bg-destructive" ↔ (p < 40)%Q)) ∧
  (classify p = High ↔ (70 <= p)%Q) ∧
  (classify p = Medium ↔ (40 <= p)%Q ∧ (p < 70)%Q) ∧
  (classify p = Low ↔ (p < 40)%Q) ∧
  classify 39.9 = Low ∧ classify 40.0 = Medium ∧
  classify 69.9 = Medium ∧ classify 70.0 = High.
Proof.
  intros Hen Hst Hp. split.
  - eexists. split; [by apply getVerificationBadge_verified|].
    rewrite Hp. simpl. rewrite verifiedBadgeClass_classify.
    split; [done|].
    rewrite <- classify_High, <- classify_Medium, <- classify_Low.
    destruct (classify p); simpl; repeat split; intros; congruence.
  - split; [apply classify_High|]. split; [apply classify_Medium|].
    split; [apply classify_Low|]. by vm_compute.
Qed.

Lemma C1_badge_follows_classify_witness :
  ∃ b, getVerificationBadge (λ _, "") [sampleProgram]
         (sampleReg "prog" "1" "p1" "verified" (Some 69.9%Q)) = Some b ∧
       className b = Some "bg-amber-600".
Proof.
  destruct (C1_badge_follows_classify (λ _, "") [sampleProgram]
              (sampleReg "prog" "1" "p1" "verified" (Some 69.9%Q)) 69.9%Q)
    as [(b & Hb & _ & _ & Hamber & _) _]; [reflexivity..|].
  exists b. split; [exact Hb|]. apply Hamber. by vm_compute.
Defined.

(** C10: a verified registration of a verification-enabled program whose
    [percentage] is [null] still gets a badge: 0 stands in for the missing
    value, the text is 0.0% and the class is the one below 40. *)
Theorem C10_null_percentage_badge NumberToString programs reg :
  programVerificationEnabled (findProgram programs (program_id reg)) = true →
  verification_status reg = "verified" →
  percentage reg = None →
  getVerificationBadge NumberToString programs reg =
  Some {| variant := None;
          className := Some "bg-destructive";
          icon := CheckCircle2;
          text := "0.0%" |} ∧
  verifiedBadgeClass 0 = tierClass (classify 0) ∧ classify 0 = Low.
Proof.
  intros Hen Hst Hp.
  rewrite getVerificationBadge_verified, Hp by done. by vm_compute.
Qed.

Lemma C10_null_percentage_badge_witness :
  text <$> getVerificationBadge (λ _, "") [sampleProgram]
             (sampleReg "prog" "1" "p1" "verified" None) = Some "0.0%".
Proof.
  destruct (C10_null_percentage_badge (λ _, "") [sampleProgram]
              (sampleReg "prog" "1" "p1" "verified" None)) as [-> _];
    reflexivity.
Defined.

(** ** The gate on [verification_enabled] *)

Lemma findProgram_Some programs programId p :
  findProgram programs programId = Some p →
  p ∈ programs ∧ Prog.id p = programId.
Proof.
  unfold findProgram. intros H. apply find_some in H as [Hin Hid].
  split; [by apply list_elem_of_In | by apply bool_decide_eq_true in Hid].
Qed.

(** With distinct ids the lookup finds the program of that id. *)
Lemma findProgram_unique programs p :
  NoDup (map Prog.id programs) → p ∈ programs →
  findProgram programs (Prog.id p) = Some p.
Proof.
  unfold findProgram. induction programs as [|q programs IH]; intros Hnd Hin.
  - by apply elem_of_nil in Hin.
  - simpl in *. apply NoDup_cons in Hnd as [Hq Hnd].
    apply elem_of_cons in Hin as [->|Hin].
    + by rewrite bool_decide_eq_true_2.
    + rewrite bool_decide_eq_false_2; [by apply IH|].
      intros Heq. apply Hq. rewrite Heq. by apply (list_elem_of_fmap_2 Prog.id).
Qed.

(** A registration whose program is not in the list gets neither. *)
Lemma unknown_program_no_badge NumberToString programs reg :
  findProgram programs (program_id reg) = None →
  getVerificationBadge NumberToString programs reg = None ∧
  verifyAction programs reg = None.
Proof.
  intros H. unfold getVerificationBadge, verifyAction. by rewrite H.
Qed.

Lemma getVerificationBadge_is_Some NumberToString programs reg :
  is_Some (getVerificationBadge NumberToString programs reg) ↔
  programVerificationEnabled (findProgram programs (program_id reg)) = true.
Proof.
  unfold getVerificationBadge.
  destruct (programVerificationEnabled _); simpl.
  - split; [done|]. intros _. destruct (bool_decide _); by eexists.
  - split; [by intros [? ?] | done].
Qed.

Lemma verifyAction_is_Some programs reg :
  is_Some (verifyAction programs reg) ↔
  programVerificationEnabled (findProgram programs (program_id reg)) = true.
Proof.
  unfold verifyAction.
  destruct (programVerificationEnabled _); simpl.
  - split; [done|]. intros _. by eexists.
  - split; [by intros [? ?] | done].
Qed.

(** C7: [verification_enabled] defaults to false, and for a registration
    of a program with the flag false there is no badge ([null] from
    [getVerificationBadge], nothing in the status cell) and no verify
    button; a badge or a button shows only for a program with the flag
    true, and then both do. *)
Theorem C7_verification_enabled_gates NumberToString programs selectedProgramId
    reg p :
  NoDup (map Prog.id programs) →
  p ∈ programs →
  Prog.id p = program_id reg →
  (∀ id name, verification_enabled (insertProgram id name None) = false) ∧
  (verification_enabled p = false →
     getVerificationBadge NumberToString programs reg = None ∧
     statusCellBadge NumberToString programs selectedProgramId reg = None ∧
     verifyAction programs reg = None) ∧
  (is_Some (getVerificationBadge NumberToString programs reg) →
     verification_enabled p = true) ∧
  (is_Some (statusCellBadge NumberToString programs selectedProgramId reg) →
     verification_enabled p = true) ∧
  (is_Some (verifyAction programs reg) → verification_enabled p = true) ∧
  (verification_enabled p = true →
     is_Some (getVerificationBadge NumberToString programs reg) ∧
     is_Some (verifyAction programs reg)).
Proof.
  intros Hnd Hin Hid.
  assert (findProgram programs (program_id reg) = Some p) as Hfind.
  { rewrite <- Hid. by apply findProgram_unique. }
  assert (programVerificationEnabled (findProgram programs (program_id reg))
          = verification_enabled p) as Hen by by rewrite Hfind.
  split; [done|].
  split.
  { intros Hoff. unfold statusCellBadge, getVerificationBadge, verifyAction.
    rewrite Hen, Hoff. simpl. by destruct (anyVerificationEnabled _ _). }
  split; [intros H%getVerificationBadge_is_Some; congruence|].
  split.
  { unfold statusCellBadge. destruct (anyVerificationEnabled _ _).
    - intros H%getVerificationBadge_is_Some. congruence.
    - by intros [? ?]. }
  split; [intros H%verifyAction_is_Some; congruence|].
  intros Hon. split.
  - apply getVerificationBadge_is_Some. congruence.
  - apply verifyAction_is_Some. congruence.
Qed.

Lemma C7_verification_enabled_gates_witness :
  getVerificationBadge (λ _, "") [sampleProgram; plainProgram]
    (sampleReg "plain" "1" "p1" "pending" None) = None ∧
  verifyAction [sampleProgram; plainProgram]
    (sampleReg "plain" "1" "p1" "pending" None) = None.
Proof.
  destruct (C7_verification_enabled_gates (λ _, "") [sampleProgram; plainProgram]
              "all" (sampleReg "plain" "1" "p1" "pending" None) plainProgram)
    as (_ & Hoff & _).
  - apply (bool_decide_unpack _). by vm_compute.
  - apply elem_of_cons. right. apply elem_of_cons. by left.
  - reflexivity.
  - destruct Hoff as (Hbadge & _ & Haction); [reflexivity|]. by split.
Defined.

End BadgeFacts.

(** ** Fetching, filtering and ordering registrations *)

Module FetchFacts.
Import JS Dialog.

Lemma sortInsert_Permutation {A} (comparefn : A → A → Z) x l :
  sortInsert comparefn x l ≡ₚ x :: l.
Proof.
  induction l as [|y l IH]; simpl; [done|].
  destruct (decide _); [done|]. rewrite IH. apply Permutation_swap.
Qed.

(** Sorting rearranges: nothing is lost, added or repeated. *)
Lemma sort_Permutation {A} (comparefn : A → A → Z) l : sort comparefn l ≡ₚ l.
Proof.
  induction l as [|x l IH]; simpl; [done|].
  unfold sort in *. simpl. by rewrite sortInsert_Permutation, IH.
Qed.

Lemma strictEqString_spec v s : strictEqString v s = true ↔ v = Some (JStr s).
Proof.
  destruct v as [[]|]; simpl; try (split; [done | by intros [=]]).
  rewrite bool_decide_eq_true. split; [by intros -> | by intros [= ->]].
Qed.

Lemma inPanchayath_spec f reg :
  inPanchayath f reg = true ↔
  optGet (optGet (Some (answers reg)) "_fixed") "panchayath_id" = Some (JStr f).
Proof. apply strictEqString_spec. Qed.

Lemma fetchLoop_fetched respond : ∀ ps acc all,
  fetchLoop respond ps acc = Some all → all = acc ++ fetched respond ps.
Proof.
  induction ps as [|programId ps IH]; intros acc all; simpl.
  - intros [= <-]. by rewrite app_nil_r.
  - destruct (respond programId) as [regs| |]; [| |done].
    + intros H%IH. by rewrite H, app_assoc.
    + apply IH.
Qed.

(** The loop yields a list exactly when no request throws. *)
Lemma fetchLoop_is_Some respond : ∀ ps acc,
  is_Some (fetchLoop respond ps acc) ↔ Forall (λ p, respond p ≠ Throws) ps.
Proof.
  induction ps as [|programId ps IH]; intros acc; simpl.
  - split; [constructor | by eexists].
  - rewrite Forall_cons. destruct (respond programId) as [regs| |].
    + rewrite IH. split; [by split | by intros [_ H]].
    + rewrite IH. split; [by split | by intros [_ H]].
    + split; [by intros [? ?] | by intros [H _]].
Qed.

Section Order.
Context (getTime : string → option Z).

Local Abbreviation time := (createdTime getTime).
Local Abbreviation newer := (newerOrEqual getTime).
Local Abbreviation dated := (λ r : Registration, is_Some (createdTime getTime r)).

Lemma newer_trans a b c : newer a b → newer b c → newer a c.
Proof.
  unfold newerOrEqual.
  destruct (time a), (time b), (time c); try done. lia.
Qed.

(** On dated registrations the comparator orders by time, newest first. *)
Lemma compareCreated_le a b :
  dated a → dated b → (compareCreated getTime a b ≤ 0)%Z ↔ newer a b.
Proof.
  intros [ta Ha] [tb Hb]. unfold compareCreated, newerOrEqual.
  rewrite Ha, Hb. lia.
Qed.

Lemma compareCreated_gt a b :
  dated a → dated b → ¬ (compareCreated getTime a b ≤ 0)%Z → newer b a.
Proof.
  intros [ta Ha] [tb Hb]. unfold compareCreated, newerOrEqual.
  rewrite Ha, Hb. lia.
Qed.

Lemma sortInsert_sorted x l :
  dated x → Forall dated l →
  StronglySorted newer l →
  StronglySorted newer (sortInsert (compareCreated getTime) x l).
Proof.
  intros Hx Hl Hsorted.
  induction Hsorted as [|y l Hs IH Hy]; simpl.
  - repeat constructor.
  - apply Forall_cons in Hl as [Hdy Hl].
    destruct (decide _) as [Hle|Hgt].
    + apply compareCreated_le in Hle; [|done..].
      constructor; [by constructor|]. constructor; [done|].
      eapply Forall_impl; [exact Hy|]. intros z. by apply newer_trans.
    + apply compareCreated_gt in Hgt; [|done..].
      constructor; [by apply IH|].
      rewrite sortInsert_Permutation. by constructor.
Qed.

(** Dated registrations come out newest first. *)
Lemma sort_sorted l :
  Forall dated l → StronglySorted newer (sort (compareCreated getTime) l).
Proof.
  induction l as [|x l IH]; intros Hl; [constructor|].
  apply Forall_cons in Hl as [Hx Hl]. unfold sort in *. simpl.
  apply sortInsert_sorted; [done| |by apply IH].
  fold (sort (compareCreated getTime) l). by rewrite sort_Permutation.
Qed.

(** The sort is stable: registrations of one time keep their order.
    Together with the two lemmas above this fixes the result. *)
Lemma sortInsert_stable t x l :
  dated x → Forall dated l →
  StronglySorted newer l →
  List.filter (λ r, bool_decide (time r = Some t))
    (sortInsert (compareCreated getTime) x l) =
  List.filter (λ r, bool_decide (time r = Some t)) (x :: l).
Proof.
  intros Hx Hl Hsorted. induction l as [|y l IH]; [done|].
  apply Forall_cons in Hl as [Hy Hl].
  apply StronglySorted_inv in Hsorted as [Hs _].
  cbn [sortInsert]. destruct (decide _) as [Hle|Hgt]; [done|].
  cbn [List.filter] in *. rewrite (IH Hl Hs).
  destruct Hx as [tx Hx], Hy as [ty Hy].
  assert (tx ≠ ty) as Hne.
  { intros ->. apply Hgt. unfold compareCreated. rewrite Hx, Hy. lia. }
  rewrite Hx, Hy.
  destruct (bool_decide (Some tx = Some t)) eqn:E1,
           (bool_decide (Some ty = Some t)) eqn:E2; try done.
  apply bool_decide_eq_true in E1, E2. congruence.
Qed.

Lemma sort_stable t l :
  Forall dated l →
  List.filter (λ r, bool_decide (time r = Some t))
    (sort (compareCreated getTime) l) =
  List.filter (λ r, bool_decide (time r = Some t)) l.
Proof.
  induction l as [|x l IH]; intros Hl; [done|].
  apply Forall_cons in Hl as [Hx Hl]. unfold sort in *. cbn [foldr].
  fold (sort (compareCreated getTime) l).
  rewrite sortInsert_stable.
  - cbn [List.filter]. unfold sort. by rewrite IH.
  - done.
  - by rewrite sort_Permutation.
  - by apply sort_sorted.
Qed.

End Order.

Lemma arrange_Permutation getTime filterPanchayathId all :
  arrange getTime filterPanchayathId all ≡ₚ
  if truthyString filterPanchayathId
  then List.filter (inPanchayath (default "" filterPanchayathId)) all
  else all.
Proof. unfold arrange. apply sort_Permutation. Qed.

(** What a run that is not cut short leaves in the state. *)
Lemma fetchRegistrations_completes getTime adminToken selectedProgramId programs
    filterPanchayathId respond st :
  truthyString adminToken = true →
  Forall (λ p, respond p ≠ Throws) (programsToFetch selectedProgramId programs) →
  fetchRegistrations getTime true adminToken selectedProgramId programs
    filterPanchayathId respond st =
  {| registrations :=
       arrange getTime filterPanchayathId
         (fetched respond (programsToFetch selectedProgramId programs));
     isLoading := false |}.
Proof.
  intros Htoken Hok. unfold fetchRegistrations. rewrite Htoken. simpl.
  apply (fetchLoop_is_Some respond _ []) in Hok as [all Hall].
  rewrite Hall. apply fetchLoop_fetched in Hall. simpl in Hall. by rewrite Hall.
Qed.

(** A closed dialog, a missing token or a throwing request leave the list
    as it was. *)
Lemma fetchRegistrations_keeps getTime open adminToken selectedProgramId programs
    filterPanchayathId respond st :
  open = false ∨ truthyString adminToken = false ∨
  ¬ Forall (λ p, respond p ≠ Throws) (programsToFetch selectedProgramId programs) →
  registrations (fetchRegistrations getTime open adminToken selectedProgramId
                   programs filterPanchayathId respond st) = registrations st.
Proof.
  unfold fetchRegistrations. intros [-> | [-> | Hthrow]]; [done| |].
  - by rewrite orb_true_r.
  - destruct (negb open || negb (truthyString adminToken)); [done|].
    destruct (fetchLoop _ _ _) as [all|] eqn:Hall; [|done].
    destruct Hthrow. eapply fetchLoop_is_Some. by eexists.
Qed.

(** C9: the list that [fetchRegistrations] produces from the fetched
    registrations is ordered by [created_at], newest first, and with a
    panchayath filter id it holds exactly the fetched registrations whose
    [answers._fixed.panchayath_id] is that id (without one, all of them). *)
Theorem C9_fetchRegistrations_newest_first_filtered getTime adminToken
    selectedProgramId programs filterPanchayathId respond st :
  truthyString adminToken = true →
  Forall (λ p, respond p ≠ Throws) (programsToFetch selectedProgramId programs) →
  Forall (λ r, is_Some (createdTime getTime r))
    (fetched respond (programsToFetch selectedProgramId programs)) →
  StronglySorted (newerOrEqual getTime)
    (registrations (fetchRegistrations getTime true adminToken selectedProgramId
                      programs filterPanchayathId respond st)) ∧
  (∀ f, filterPanchayathId = Some f → f ≠ "" →
     registrations (fetchRegistrations getTime true adminToken selectedProgramId
                      programs filterPanchayathId respond st)
     ≡ₚ List.filter (inPanchayath f)
          (fetched respond (programsToFetch selectedProgramId programs)) ∧
     ∀ r, r ∈ registrations (fetchRegistrations getTime true adminToken
                               selectedProgramId programs filterPanchayathId
                               respond st) ↔
          r ∈ fetched respond (programsToFetch selectedProgramId programs) ∧
          optGet (optGet (Some (answers r)) "_fixed") "panchayath_id"
          = Some (JStr f)) ∧
  (truthyString filterPanchayathId = false →
     registrations (fetchRegistrations getTime true adminToken selectedProgramId
                      programs filterPanchayathId respond st)
     ≡ₚ fetched respond (programsToFetch selectedProgramId programs)).
Proof.
  intros Htoken Hok Hdated.
  rewrite fetchRegistrations_completes by done. simpl.
  set (all := fetched respond (programsToFetch selectedProgramId programs)) in *.
  split; [|split].
  - unfold arrange. apply sort_sorted.
    destruct (truthyString filterPanchayathId); [|done].
    rewrite Forall_forall in Hdated. apply Forall_forall.
    intros r Hr%list_elem_of_In%filter_In. apply Hdated, list_elem_of_In, Hr.
  - intros f -> Hf.
    assert (arrange getTime (Some f) all ≡ₚ List.filter (inPanchayath f) all)
      as Hperm.
    { rewrite arrange_Permutation. simpl. by rewrite bool_decide_eq_false_2. }
    split; [done|]. intros r. rewrite Hperm.
    rewrite list_elem_of_In, filter_In, <- list_elem_of_In, inPanchayath_spec.
    done.
  - intros Hnone. rewrite arrange_Permutation. by rewrite Hnone.
Qed.

Lemma C9_fetchRegistrations_newest_first_filtered_witness :
  registrations
    (fetchRegistrations (λ s, Some (Z.of_nat (String.length s))) true (Some "token")
       "all" [sampleProgram] (Some "p1")
       (λ _, Ok [sampleReg "prog" "1" "p1" "pending" None;
                 sampleReg "prog" "333" "p1" "pending" None;
                 sampleReg "prog" "22" "p2" "pending" None])
       {| registrations := []; isLoading := false |})
  ≡ₚ [sampleReg "prog" "1" "p1" "pending" None;
      sampleReg "prog" "333" "p1" "pending" None].
Proof.
  destruct (C9_fetchRegistrations_newest_first_filtered
              (λ s, Some (Z.of_nat (String.length s))) (Some "token")
              "all" [sampleProgram] (Some "p1")
              (λ _, Ok [sampleReg "prog" "1" "p1" "pending" None;
                        sampleReg "prog" "333" "p1" "pending" None;
                        sampleReg "prog" "22" "p2" "pending" None])
              {| registrations := []; isLoading := false |})
    as (_ & Hfilter & _).
  - reflexivity.
  - simpl. repeat constructor; discriminate.
  - simpl. repeat constructor; by eexists.
  - destruct (Hfilter "p1") as [Hperm _]; [reflexivity | discriminate |].
    exact Hperm.
Defined.

Example fetch_orders_newest_first :
  map created_at
    (registrations
       (fetchRegistrations (λ s, Some (Z.of_nat (String.length s))) true
          (Some "token") "all" [sampleProgram] (Some "p1")
          (λ _, Ok [sampleReg "prog" "1" "p1" "pending" None;
                    sampleReg "prog" "333" "p1" "pending" None;
                    sampleReg "prog" "22" "p2" "pending" None])
          {| registrations := []; isLoading := false |}))
  = ["333"; "1"].
Proof. by vm_compute. Qed.

(** An empty filter id is falsy: nothing is filtered. *)
Example fetch_empty_filter_keeps_all :
  map created_at
    (registrations
       (fetchRegistrations (λ s, Some (Z.of_nat (String.length s))) true
          (Some "token") "all" [sampleProgram] (Some "")
          (λ _, Ok [sampleReg "prog" "1" "p1" "pending" None;
                    sampleReg "prog" "22" "p2" "pending" None])
          {| registrations := []; isLoading := false |}))
  = ["22"; "1"].
Proof. by vm_compute. Qed.

End FetchFacts.

(** ** The scoring contract and the status state machine *)

Module ScoringFacts.
Import JS Dialog Migration Scoring.

Example score_mixed :
  score pendingReg sampleQuestions scoresMixed "admin" "now" =
  inr {| result_status := "verified";
         result_scores := scoresMixed;
         result_total_score := sumScores scoresMixed;
         result_max_score := 20%Q;
         result_percentage := percentageOf (sumScores scoresMixed) 20%Q;
         result_verified_by := "admin";
         result_verified_at := "now" |}.
Proof. by vm_compute. Qed.

Example score_mixed_percentage :
  Qred (percentageOf (sumScores scoresMixed) 20%Q) = 55%Q.
Proof. by vm_compute. Qed.

Example score_eleven :
  score pendingReg sampleQuestions scoresEleven "admin" "now" =
  inl (InvalidScoreError "q2").
Proof. by vm_compute. Qed.

Lemma isInteger_spec v : isInteger v = true ↔ ∃ n : Z, (v == inject_Z n)%Q.
Proof.
  unfold isInteger. rewrite bool_decide_eq_true. split.
  - intros Hden. exists (Qnum (Qred v)).
    rewrite <- (Qred_correct v) at 1.
    destruct (Qred v) as [n d]. simpl in *. by subst d.
  - intros [n Hn]. apply Qred_complete in Hn.
    rewrite Hn, inject_Z_Qred. reflexivity.
Qed.

(** A valid score is one of the integers 0 to 10. *)
Lemma validScore_spec v :
  validScore v = true ↔ ∃ n : Z, (0 ≤ n ≤ 10)%Z ∧ (v == inject_Z n)%Q.
Proof.
  unfold validScore. rewrite !andb_true_iff, isInteger_spec, !Qle_bool_iff.
  split.
  - intros [[[n Hn] H0] H10]. exists n. split; [|done].
    rewrite Hn in H0, H10. split.
    + rewrite Zle_Qle. exact H0.
    + rewrite Zle_Qle. exact H10.
  - intros (n & [H0 H10] & Hn). rewrite Hn. repeat split.
    + by exists n.
    + rewrite Zle_Qle in H0. exact H0.
    + rewrite Zle_Qle in H10. exact H10.
Qed.

Lemma offendingQuestion_None scoresByQuestion :
  offendingQuestion scoresByQuestion = None ↔
  ∀ q v, scoresByQuestion !! q = Some v → validScore v = true.
Proof.
  unfold offendingQuestion. split.
  - intros Hnone q v Hqv.
    destruct (List.find _ _) as [kv|] eqn:Hfind; [done|].
    apply elem_of_map_to_list, list_elem_of_In in Hqv.
    apply (find_none _ _ Hfind (q, v)) in Hqv.
    by apply negb_false_iff in Hqv.
  - intros Hall. destruct (List.find _ _) as [[q v]|] eqn:Hfind; [|done].
    apply find_some in Hfind as [Hin Hneg]. simpl in Hneg.
    apply list_elem_of_In, elem_of_map_to_list, Hall in Hin.
    rewrite Hin in Hneg. done.
Qed.

Lemma offendingQuestion_Some scoresByQuestion q :
  offendingQuestion scoresByQuestion = Some q →
  ∃ v, scoresByQuestion !! q = Some v ∧ validScore v = false.
Proof.
  unfold offendingQuestion.
  destruct (List.find _ _) as [[k v]|] eqn:Hfind; [|done].
  intros [= <-]. apply find_some in Hfind as [Hin Hneg]. simpl in *.
  exists v. split.
  - by apply elem_of_map_to_list, list_elem_of_In.
  - by apply negb_true_iff.
Qed.

Lemma offendingQuestion_exists scoresByQuestion q v :
  scoresByQuestion !! q = Some v → validScore v = false →
  ∃ q', offendingQuestion scoresByQuestion = Some q'.
Proof.
  intros Hq Hv. destruct (offendingQuestion scoresByQuestion) eqn:Hoff; [by eexists|].
  rewrite offendingQuestion_None in Hoff. apply Hoff in Hq. congruence.
Qed.

Lemma validScore_proper x y : (x == y)%Q → validScore x = validScore y.
Proof.
  intros H. unfold validScore, isInteger.
  rewrite (Qred_complete x y H). by rewrite H.
Qed.

Lemma score_valid reg questions scoresByQuestion actor now :
  (∀ q v, scoresByQuestion !! q = Some v → validScore v = true) →
  score reg questions scoresByQuestion actor now =
  inr {| result_status := "verified";
         result_scores := scoresByQuestion;
         result_total_score := sumScores scoresByQuestion;
         result_max_score := inject_Z (10 * Z.of_nat (length questions));
         result_percentage :=
           percentageOf (sumScores scoresByQuestion)
             (inject_Z (10 * Z.of_nat (length questions)));
         result_verified_by := actor;
         result_verified_at := now |}.
Proof.
  intros Hvalid%offendingQuestion_None. unfold score. by rewrite Hvalid.
Qed.

Lemma allScored_valid v scoresByQuestion :
  validScore v = true → allScored v scoresByQuestion →
  ∀ q x, scoresByQuestion !! q = Some x → validScore x = true.
Proof.
  intros Hv Hall q x Hq. apply Hall in Hq. apply Qeq_bool_iff in Hq.
  by rewrite (validScore_proper x v).
Qed.

Lemma foldr_Qplus_const v l :
  Forall (λ x, Qeq_bool x v = true) l →
  (foldr Qplus 0 l == v * inject_Z (Z.of_nat (length l)))%Q.
Proof.
  induction 1 as [|x l Hx _ IH].
  - simpl. ring.
  - cbn [foldr length]. apply Qeq_bool_iff in Hx.
    rewrite IH, Hx, Nat2Z.inj_succ, <- Z.add_1_r, inject_Z_plus. ring.
Qed.

Lemma sumScores_const v scoresByQuestion :
  allScored v scoresByQuestion →
  (sumScores scoresByQuestion == v * inject_Z (Z.of_nat (size scoresByQuestion)))%Q.
Proof.
  intros Hall. unfold sumScores.
  rewrite <- length_map_to_list, <- (length_map snd).
  apply foldr_Qplus_const, Forall_map.
  apply map_Forall_to_list in Hall.
  eapply Forall_impl; [exact Hall|]. by intros [q x].
Qed.

Lemma covers_size questions scoresByQuestion :
  covers questions scoresByQuestion → size scoresByQuestion = length questions.
Proof.
  intros [Hnd Hdom].
  rewrite <- (size_dom (D:=gset string)), Hdom, size_list_to_set by done.
  apply length_map.
Qed.

Lemma percentageOf_pos total_score max_score :
  (0 < max_score)%Q →
  percentageOf total_score max_score = (100 * total_score / max_score)%Q.
Proof.
  intros H. unfold percentageOf.
  destruct (0 ?= max_score)%Q eqn:E; [| done |].
  - apply Qeq_alt in E. rewrite <- E in H. by apply Qlt_irrefl in H.
  - apply Qgt_alt in E. exfalso. apply (Qlt_irrefl 0). by apply Qlt_trans with max_score.
Qed.

Lemma percentageOf_zero total_score max_score :
  (max_score == 0)%Q → percentageOf total_score max_score = 0%Q.
Proof.
  intros H. unfold percentageOf.
  destruct (0 ?= max_score)%Q eqn:E; [done | | done].
  apply Qlt_alt in E. rewrite H in E. by apply Qlt_irrefl in E.
Qed.

Lemma max_score_pos (questions : list FormQuestion) :
  questions ≠ [] → (0 < inject_Z (10 * Z.of_nat (length questions)))%Q.
Proof.
  intros Hne. rewrite <- (Zlt_Qlt 0). destruct questions; [done|]. simpl length. lia.
Qed.

(** With every supplied score equal to [v] over a covered, non-empty
    question set the percentage is [10 * v]. *)
Lemma percentage_const v questions scoresByQuestion :
  questions ≠ [] → covers questions scoresByQuestion →
  allScored v scoresByQuestion →
  (percentageOf (sumScores scoresByQuestion)
     (inject_Z (10 * Z.of_nat (length questions))) == 10 * v)%Q.
Proof.
  intros Hne Hcov Hall.
  rewrite percentageOf_pos by by apply max_score_pos.
  rewrite (sumScores_const v) by done.
  rewrite (covers_size questions) by done.
  rewrite inject_Z_mult.
  assert (¬ (inject_Z (Z.of_nat (length questions)) == 0)%Q) as Hpos.
  { destruct questions; [done|]. simpl length. intros H.
    apply (proj1 (inject_Z_injective _ 0)) in H. lia. }
  change (inject_Z 10) with 10%Q. field. done.
Qed.

(** C4: [score] sets [total_score] to the sum of the supplied scores,
    [max_score] to 10 times the number of questions, and [percentage] to
    [100 * total_score / max_score] when [max_score > 0] and to 0 when
    [max_score = 0]; over a non-empty question set, all zeros give 0 and
    all tens give 100. *)
Theorem C4_score_aggregates reg questions scoresByQuestion actor now :
  (∀ res, score reg questions scoresByQuestion actor now = inr res →
     result_total_score res = sumScores scoresByQuestion ∧
     result_max_score res = inject_Z (10 * Z.of_nat (length questions)) ∧
     ((0 < result_max_score res)%Q →
        result_percentage res
        = (100 * result_total_score res / result_max_score res)%Q) ∧
     ((result_max_score res == 0)%Q → result_percentage res = 0%Q)) ∧
  ((∀ q v, scoresByQuestion !! q = Some v → validScore v = true) →
     ∃ res, score reg questions scoresByQuestion actor now = inr res) ∧
  (questions ≠ [] → covers questions scoresByQuestion →
     allScored 0 scoresByQuestion →
     ∃ res, score reg questions scoresByQuestion actor now = inr res ∧
            (result_percentage res == 0)%Q) ∧
  (questions ≠ [] → covers questions scoresByQuestion →
     allScored 10 scoresByQuestion →
     ∃ res, score reg questions scoresByQuestion actor now = inr res ∧
            (result_percentage res == 100)%Q).
Proof.
  split; [|split; [|split]].
  - intros res. unfold score.
    destruct (offendingQuestion scoresByQuestion); [done|].
    intros [= <-]. simpl. split; [done|]. split; [done|].
    split; [apply percentageOf_pos | apply percentageOf_zero].
  - intros Hvalid. eexists. by apply score_valid.
  - intros Hne Hcov Hall. eexists.
    split; [apply score_valid; by apply (allScored_valid 0)|].
    simpl. by rewrite (percentage_const 0).
  - intros Hne Hcov Hall. eexists.
    split; [apply score_valid; by apply (allScored_valid 10)|].
    simpl. by rewrite (percentage_const 10).
Qed.

Lemma C4_score_aggregates_witness :
  ∃ res, score pendingReg sampleQuestions scoresAllTen "admin" "now" = inr res ∧
         (result_percentage res == 100)%Q.
Proof.
  destruct (C4_score_aggregates pendingReg sampleQuestions scoresAllTen
              "admin" "now") as (_ & _ & _ & Hten).
  apply Hten.
  - discriminate.
  - split; apply (bool_decide_unpack _); by vm_compute.
  - apply (bool_decide_unpack _). by vm_compute.
Defined.

(** C5: a score map that holds, for some question, a value that is not an
    integer from 0 to 10 (11 and -1 are such values) makes [score] fail
    with [InvalidScoreError] naming a question with such a value, the
    question itself when it is the only one; the verification act then
    leaves the registration as it was, so a pending one stays pending. *)
Theorem C5_invalid_score_rejected reg questions scoresByQuestion actor now q v :
  scoresByQuestion !! q = Some v →
  ¬ (∃ n : Z, (0 ≤ n ≤ 10)%Z ∧ (v == inject_Z n)%Q) →
  ∃ q',
    score reg questions scoresByQuestion actor now = inl (InvalidScoreError q') ∧
    (∃ v', scoresByQuestion !! q' = Some v' ∧
           ¬ (∃ n : Z, (0 ≤ n ≤ 10)%Z ∧ (v' == inject_Z n)%Q)) ∧
    ((∀ k w, scoresByQuestion !! k = Some w → validScore w = false → k = q) →
       q' = q) ∧
    verify reg questions scoresByQuestion actor now
    = (reg, Some (InvalidScoreError q')) ∧
    (verification_status reg = "pending" →
       verification_status (verify reg questions scoresByQuestion actor now).1
       = "pending") ∧
    validScore 11 = false ∧ validScore (-1) = false.
Proof.
  intros Hq Hv.
  assert (validScore v = false) as Hinvalid.
  { destruct (validScore v) eqn:E; [|done]. by apply validScore_spec in E. }
  destruct (offendingQuestion_exists _ _ _ Hq Hinvalid) as [q' Hq'].
  destruct (offendingQuestion_Some _ _ Hq') as (v' & Hlook & Hv').
  assert (score reg questions scoresByQuestion actor now
          = inl (InvalidScoreError q')) as Hscore.
  { unfold score. by rewrite Hq'. }
  exists q'. split; [done|]. split.
  { exists v'. split; [done|]. intros Hok%validScore_spec. congruence. }
  split; [intros Honly; by apply (Honly q' v')|].
  unfold verify. rewrite Hscore. simpl. done.
Qed.

Lemma C5_invalid_score_rejected_witness :
  score pendingReg sampleQuestions scoresEleven "admin" "now"
  = inl (InvalidScoreError "q2") ∧
  verify pendingReg sampleQuestions scoresEleven "admin" "now"
  = (pendingReg, Some (InvalidScoreError "q2")).
Proof.
  destruct (C5_invalid_score_rejected pendingReg sampleQuestions scoresEleven
              "admin" "now" "q2" 11%Q)
    as (q' & Hscore & _ & Honly & Hverify & _).
  - reflexivity.
  - intros (n & Hn & Heq). apply (proj1 (inject_Z_injective 11 n)) in Heq. lia.
  - assert (q' = "q2") as ->; [|by split].
    pose proof Hscore as H. vm_compute in H. congruence.
Defined.

Lemma status_check_spec s :
  program_registrations_verification_status_check s = true ↔
  s = "pending" ∨ s = "verified".
Proof.
  unfold program_registrations_verification_status_check.
  by rewrite orb_true_iff, !bool_decide_eq_true.
Qed.

Lemma submitted_pending r0 :
  submitted r0 →
  verification_status r0 = "pending" ∧ percentage r0 = None ∧
  total_score r0 = None ∧ max_score r0 = None ∧
  verification_scores r0 = None ∧ verified_at r0 = None ∧ verified_by r0 = None.
Proof. intros (i & p & a & c & [= <-]). by repeat split. Qed.

Lemma verification_step_verified r r' :
  verification_step r r' → verification_status r' = "verified".
Proof.
  intros [reg questions scores actor now res Hscore]. simpl.
  unfold score in Hscore. destruct (offendingQuestion scores); [done|].
  by injection Hscore as <-.
Qed.

(** Whatever a run of verification acts starts from, it ends where it
    started or in a verified registration. *)
Lemma steps_end_verified r r' :
  rtc verification_step r r' → r' = r ∨ verification_status r' = "verified".
Proof.
  intros Hsteps.
  revert r' Hsteps.
  apply (rtc_ind_r (R:=verification_step)
           (λ z, z = r ∨ verification_status z = "verified") r); [by left|].
  intros y z _ Hstep _. right. by eapply verification_step_verified.
Qed.

(** C6: the status column admits the values pending and verified and no
    other; a submitted registration starts pending; the one move of the
    state machine, a successful verification act, ends in verified
    whatever the status before (so a second act overwrites the first
    result and nothing leads back to pending). *)
Theorem C6_status_state_machine :
  (∀ s, program_registrations_verification_status_check s = true ↔
        s = "pending" ∨ s = "verified") ∧
  (∀ id program_id answers created_at s,
     is_Some (insertRegistration id program_id answers created_at (Some s)) ↔
     s = "pending" ∨ s = "verified") ∧
  (∀ new, is_Some (updateRegistration new) ↔
          verification_status new = "pending" ∨
          verification_status new = "verified") ∧
  (∀ r0, submitted r0 → verification_status r0 = "pending") ∧
  (∀ r r', verification_step r r' →
     verification_status r' = "verified" ∧ updateRegistration r' = Some r') ∧
  (∀ r, reachable r →
     verification_status r = "pending" ∨ verification_status r = "verified") ∧
  (∀ r r', verification_status r = "verified" → rtc verification_step r r' →
     verification_status r' = "verified") ∧
  (∀ reg res res', applyResult (applyResult reg res) res' = applyResult reg res').
Proof.
  split; [apply status_check_spec|].
  split.
  { intros i p a c s. rewrite <- status_check_spec. unfold insertRegistration.
    simpl. destruct (program_registrations_verification_status_check s).
    - split; [done | by eexists].
    - split; [by intros [? ?] | done]. }
  split.
  { intros new. rewrite <- status_check_spec. unfold updateRegistration.
    destruct (program_registrations_verification_status_check _).
    - split; [done | by eexists].
    - split; [by intros [? ?] | done]. }
  split; [intros r0 Hr0; by apply submitted_pending|].
  split.
  { intros r r' Hstep. apply verification_step_verified in Hstep as Hv.
    split; [done|]. unfold updateRegistration. rewrite Hv. reflexivity. }
  split.
  { intros r (r0 & Hr0 & Hsteps).
    destruct (steps_end_verified _ _ Hsteps) as [-> | Hv]; [|by right].
    left. by apply submitted_pending. }
  split.
  { intros r r' Hv Hsteps.
    by destruct (steps_end_verified _ _ Hsteps) as [-> | Hv']. }
  done.
Qed.

Lemma C6_status_state_machine_witness :
  ∃ r0, insertRegistration "r" "prog" JNull "2026-02-03" None = Some r0 ∧
        verification_status r0 = "pending".
Proof.
  eexists. split; [reflexivity|].
  destruct C6_status_state_machine as (_ & _ & _ & Hsubmitted & _).
  apply Hsubmitted. by exists "r", "prog", JNull, "2026-02-03".
Defined.

End ScoringFacts.

(** ** Further properties of the roll-up and the panel *)

Module RollupFacts.
Import Agents Panel.



Lemma foldl_addChild_ext f g l :
  (∀ c, c ∈ l → f c = g c) →
  ∀ z, foldl (addChild f) z l = foldl (addChild g) z l.
Proof.
  induction l as [|x l IH]; intros Hfg z; simpl; [done|].
  rewrite IH.
  - unfold addChild. rewrite (Hfg x); [done | by left].
  - intros c Hc. apply Hfg. by right.
Qed.



Lemma directReportsOf_filter (P : PennyekartAgent → Prop)
    `{∀ x, Decision (P x)} allAgents x :
  (∀ e, e ∈ allAgents → parent_agent_id e = Some (id x) → P e) →
  directReportsOf (filter P allAgents) x = directReportsOf allAgents x.
Proof.
  unfold directReportsOf. induction allAgents as [|e l IH]; intros Hkeep; [done|].
  assert (filter (λ c, parent_agent_id c = Some (id x)) (filter P l)
          = filter (λ c, parent_agent_id c = Some (id x)) l) as IH'.
  { apply IH. intros e' He'. apply Hkeep. by right. }
  destruct (decide (P e)) as [HP|HP].
  - rewrite (filter_cons_True P) by done. rewrite !filter_cons, IH'. done.
  - rewrite (filter_cons_False P) by done. rewrite IH'.
    rewrite filter_cons_False; [done|]. intros Hparent. apply HP, Hkeep; [by left|done].
Qed.

(** X2: agents that report to no one in the list (or to no one at all) count
    toward nobody: taking any such agents out of the list changes no
    total. *)
Theorem rollup_ignores_unattached (P : PennyekartAgent → Prop)
    `{∀ x, Decision (P x)} allAgents a :
  (∀ e x, e ∈ allAgents → ¬ P e → x ∈ a :: allAgents →
          parent_agent_id e ≠ Some (id x)) →
  ∀ depth,
    calculateTotalCustomers depth (filter P allAgents) a
    = calculateTotalCustomers depth allAgents a.
Proof.
  intros Hloose depth.
  assert (∀ x, x ∈ a :: allAgents →
            calculateTotalCustomers depth (filter P allAgents) x
            = calculateTotalCustomers depth allAgents x) as Hall;
    [|apply Hall; by left].
  induction depth as [|d IH]; intros x Hx; [done|]. simpl.
  destruct (decide (role x = pro)); [done|].
  assert (directReportsOf (filter P allAgents) x = directReportsOf allAgents x)
    as ->.
  { apply directReportsOf_filter. intros e He Hparent.
    destruct (decide (P e)) as [|Hno]; [done|].
    by destruct (Hloose e x He Hno Hx). }
  apply foldl_addChild_ext. intros c Hc. apply IH.
  right. unfold directReportsOf in Hc. by apply list_elem_of_filter in Hc as [_ ?].
Qed.

Lemma rollup_ignores_unattached_witness :
  calculateTotalCustomers 4 [sampleT; sampleC] sampleT
  = calculateTotalCustomers 4 [sampleT; sampleC; sampleP1; sampleP2] sampleT.
Proof.
  assert (∀ e x, e ∈ [sampleT; sampleC; sampleP1; sampleP2] →
            ¬ parent_agent_id e ≠ Some "G" →
            x ∈ sampleT :: [sampleT; sampleC; sampleP1; sampleP2] →
            parent_agent_id e ≠ Some (id x)) as Hloose.
  { intros e x _ Hnot Hx Hparent.
    assert (parent_agent_id e = Some "G") as HG.
    { destruct (decide (parent_agent_id e = Some "G")); [done | by destruct Hnot]. }
    rewrite HG in Hparent. injection Hparent as Hid.
    repeat (apply elem_of_cons in Hx as [-> | Hx]; [discriminate|]).
    by apply elem_of_nil in Hx. }
  exact (rollup_ignores_unattached (λ e, parent_agent_id e ≠ Some "G")
           [sampleT; sampleC; sampleP1; sampleP2] sampleT Hloose 4).
Defined.

(** X3: a node all of whose direct reports are [pro] totals their
    customer counts, and two nested calls are enough for that. *)
Theorem rollup_of_pro_reports allAgents a depth :
  role a ≠ pro →
  Forall (λ c, role c = pro) (directReportsOf allAgents a) →
  calculateTotalCustomers (S (S depth)) allAgents a
  = Some (sumZ (map customer_count (directReportsOf allAgents a))).
Proof.
  intros Hrole Hpro.
  rewrite AgentsFacts.calculateTotalCustomers_unfold, decide_False by done.
  apply AgentsFacts.foldl_addChild_Some.
  exists (map customer_count (directReportsOf allAgents a)). split; [|done].
  induction Hpro as [|c l Hc _ IH]; simpl; constructor; [|done].
  by rewrite decide_True.
Qed.

Lemma rollup_of_pro_reports_witness :
  calculateTotalCustomers 2 sampleTree sampleG = Some 8%Z.
Proof.
  rewrite (rollup_of_pro_reports sampleTree sampleG 0).
  - reflexivity.
  - discriminate.
  - apply (bool_decide_unpack _). by vm_compute.
Defined.

Lemma foldl_addChild_nonneg f l :
  Forall (λ c, ∀ v, f c = Some v → (0 ≤ v)%Z) l →
  ∀ z v, (0 ≤ z)%Z → foldl (addChild f) (Some z) l = Some v → (0 ≤ v)%Z.
Proof.
  induction 1 as [|x l Hx _ IH]; intros z v Hz; simpl.
  - by intros [= <-].
  - destruct (f x) as [w|] eqn:Hw.
    + apply IH. specialize (Hx w eq_refl). lia.
    + by rewrite AgentsFacts.foldl_addChild_None.
Qed.

(** X4: totals are never negative when no [pro] has a negative count. *)
Theorem rollup_nonnegative allAgents depth a v :
  (∀ c, c ∈ a :: allAgents → role c = pro → (0 ≤ customer_count c)%Z) →
  calculateTotalCustomers depth allAgents a = Some v → (0 ≤ v)%Z.
Proof.
  intros Hcounts. revert a v Hcounts.
  induction depth as [|d IH]; intros a v Hcounts; [done|].
  rewrite AgentsFacts.calculateTotalCustomers_unfold.
  destruct (decide (role a = pro)) as [Hpro|Hrole].
  - intros [= <-]. apply Hcounts; [by left | done].
  - apply foldl_addChild_nonneg; [|done]. apply Forall_forall.
    intros c [Hc _]%AgentsFacts.directReportsOf_spec w. apply IH.
    intros x [-> | Hx]%elem_of_cons; apply Hcounts; by right.
Qed.

Lemma rollup_nonnegative_witness :
  calculateTotalCustomers 4 sampleTree sampleT = Some 8%Z ∧ (0 ≤ 8)%Z.
Proof.
  split; [reflexivity|].
  apply (rollup_nonnegative sampleTree 4 sampleT 8).
  - intros c Hc _.
    repeat (apply elem_of_cons in Hc as [-> | Hc]; [by vm_compute|]).
    by apply elem_of_nil in Hc.
  - reflexivity.
Defined.

(** X5: looking up the parent and listing the direct reports agree: among
    agents with distinct ids, [p] is found as the parent of [c] exactly
    when [c] is listed among the direct reports of [p]. *)
Theorem parent_and_reports_agree allAgents p c :
  NoDup (map id allAgents) → p ∈ allAgents → c ∈ allAgents →
  parentAgentOf allAgents c = Some p ↔ c ∈ directReportsOf allAgents p.
Proof.
  intros Hnd Hp Hc. rewrite AgentsFacts.directReportsOf_spec.
  unfold parentAgentOf. split.
  - intros Hfind. apply find_some in Hfind as [_ Hid].
    apply bool_decide_eq_true in Hid. by split.
  - intros [_ Hparent]. clear Hc.
    induction allAgents as [|x l IH]; [by apply elem_of_nil in Hp|].
    simpl in *. apply NoDup_cons in Hnd as [Hx Hnd].
    apply elem_of_cons in Hp as [<- | Hp].
    + by rewrite bool_decide_eq_true_2.
    + rewrite bool_decide_eq_false_2; [by apply IH|].
      rewrite Hparent. intros [= Heq]. apply Hx. rewrite Heq.
      by apply (list_elem_of_fmap_2 id).
Qed.

Lemma parent_and_reports_agree_witness :
  parentAgentOf sampleTree sampleP1 = Some sampleG.
Proof.
  apply (parent_and_reports_agree sampleTree sampleG sampleP1).
  - apply (bool_decide_unpack _). by vm_compute.
  - do 2 right. by left.
  - do 3 right. by left.
  - vm_compute. by left.
Defined.

(** An agent without a parent id, or whose parent id names no agent of
    the list, has no "Reports To" entry. *)
Lemma parentAgentOf_None allAgents c :
  parentAgentOf allAgents c = None ↔
  ∀ p, p ∈ allAgents → parent_agent_id c ≠ Some (id p).
Proof.
  unfold parentAgentOf. split.
  - intros Hnone p Hp%list_elem_of_In Heq.
    apply (find_none _ _ Hnone) in Hp. rewrite bool_decide_eq_false in Hp. done.
  - intros Hall. destruct (List.find _ _) as [p|] eqn:Hfind; [|done].
    apply find_some in Hfind as [Hin%list_elem_of_In Hid].
    apply bool_decide_eq_true in Hid. by destruct (Hall p Hin).
Qed.

End RollupFacts.

(** ** Further properties of the registrations dialog *)

Module ViewFacts.
Import JS Dialog Scoring Views.

Lemma existsb_verification_enabled programs programId p :
  existsb verification_enabled programs = false →
  findProgram programs programId = Some p → verification_enabled p = false.
Proof.
  intros Hnone [Hin _]%BadgeFacts.findProgram_Some.
  destruct (verification_enabled p) eqn:Hp; [|done].
  assert (existsb verification_enabled programs = true); [|congruence].
  apply existsb_exists. exists p. split; [by apply list_elem_of_In | done].
Qed.

(** X6: the status column never hides a badge of a row that belongs to the
    selection: with "all" selected, or for a registration of the selected
    program, the cell shows what [getVerificationBadge] returns. *)
Theorem status_cell_shows_the_badge NumberToString programs selectedProgramId reg :
  selectedProgramId = "all" ∨ program_id reg = selectedProgramId →
  statusCellBadge NumberToString programs selectedProgramId reg
  = getVerificationBadge NumberToString programs reg.
Proof.
  intros Hsel. unfold statusCellBadge.
  destruct (anyVerificationEnabled programs selectedProgramId) eqn:Hany; [done|].
  symmetry. unfold getVerificationBadge.
  assert (programVerificationEnabled (findProgram programs (program_id reg))
          = false) as ->; [|done].
  unfold anyVerificationEnabled in Hany.
  destruct (bool_decide (selectedProgramId = "all")) eqn:Hall.
  - destruct (findProgram programs (program_id reg)) as [p|] eqn:Hfind; [|done].
    simpl. by eapply existsb_verification_enabled.
  - apply bool_decide_eq_false in Hall. destruct Hsel as [|Hsel]; [done|].
    rewrite Hsel. exact Hany.
Qed.

Lemma status_cell_shows_the_badge_witness :
  statusCellBadge (λ _, "") [sampleProgram; plainProgram] "prog"
    (sampleReg "prog" "1" "p1" "pending" None)
  = Some {| variant := Some "secondary"; className := None;
            icon := Clock; text := "Pending" |}.
Proof.
  rewrite status_cell_shows_the_badge; [reflexivity | by right].
Defined.

(** X7: a row left over from another selection can lose its badge while it
    keeps its verify button: the column is gated by the selected program,
    the button by the program of the row. *)
Theorem stale_row_button_without_badge NumberToString programs selectedProgramId
    reg :
  selectedProgramId ≠ "all" →
  verificationEnabled programs selectedProgramId = false →
  programVerificationEnabled (findProgram programs (program_id reg)) = true →
  statusCellBadge NumberToString programs selectedProgramId reg = None ∧
  is_Some (verifyAction programs reg) ∧
  is_Some (getVerificationBadge NumberToString programs reg).
Proof.
  intros Hsel Hoff Hon. split; [|split].
  - unfold statusCellBadge, anyVerificationEnabled.
    by rewrite bool_decide_eq_false_2, Hoff.
  - by apply BadgeFacts.verifyAction_is_Some.
  - by apply BadgeFacts.getVerificationBadge_is_Some.
Qed.

Lemma stale_row_button_without_badge_witness :
  statusCellBadge (λ _, "") [sampleProgram; plainProgram] "plain"
    (sampleReg "prog" "1" "p1" "pending" None) = None ∧
  is_Some (verifyAction [sampleProgram; plainProgram]
             (sampleReg "prog" "1" "p1" "pending" None)).
Proof.
  destruct (stale_row_button_without_badge (λ _, "")
              [sampleProgram; plainProgram] "plain"
              (sampleReg "prog" "1" "p1" "pending" None))
    as (Hcell & Hbutton & _); [discriminate | reflexivity | reflexivity |].
  by split.
Defined.

(** X8: the badge and the verify button of a row come together, and they
    tell the same state: the check-mark badge goes with "View
    verification", the pending badge with "Verify registration". *)
Theorem badge_and_button_agree NumberToString programs reg :
  (is_Some (getVerificationBadge NumberToString programs reg) ↔
   is_Some (verifyAction programs reg)) ∧
  ∀ b v, getVerificationBadge NumberToString programs reg = Some b →
         verifyAction programs reg = Some v →
         (icon b = CheckCircle2 ↔ title v = "View verification") ∧
         (variant b = Some "secondary" ↔ title v = "Verify registration") ∧
         (buttonClass v = "text-emerald-600" ↔ title v = "View verification").
Proof.
  split.
  - by rewrite BadgeFacts.getVerificationBadge_is_Some,
               BadgeFacts.verifyAction_is_Some.
  - intros b v. unfold getVerificationBadge, verifyAction.
    destruct (programVerificationEnabled _); simpl; [|done].
    destruct (bool_decide (verification_status reg = "verified"));
      intros [= <-] [= <-]; simpl; repeat split; done.
Qed.

Lemma append_empty (s t : string) : s +:+ t = "" → s = "" ∧ t = "".
Proof. destruct s; simpl; [done | discriminate]. Qed.

(** Below 10^21 [toFixed(1)] prints a decimal point, so its result is
    not the empty string. *)
Lemma toFixed_1_nonempty NumberToString (x : Q) :
  Qle_bool (inject_Z (10 ^ 21)) (Qabs x) = false →
  toFixed NumberToString 1 x ≠ "".
Proof.
  intros Hsmall Hempty. unfold toFixed in Hempty. rewrite Hsmall in Hempty.
  apply append_empty in Hempty as [_ Hempty].
  destruct (decide (1 = 0)); [lia|].
  apply append_empty in Hempty as [_ Hempty]. discriminate.
Qed.

(** X9: the details dialog and the table badge print a stored percentage
    alike, but not a missing one: the badge prints 0.0%, the details
    dialog 0%. *)
Theorem details_text_and_badge_text NumberToString programs reg b :
  verification_status reg = "verified" →
  getVerificationBadge NumberToString programs reg = Some b →
  (∀ p, percentage reg = Some p → (Qabs p < inject_Z (10 ^ 21))%Q →
        detailsPercentText NumberToString reg = text b) ∧
  (percentage reg = None →
     detailsPercentText NumberToString reg = "0%" ∧ text b = "0.0%") ∧
  detailsVerifiedShown programs reg = true.
Proof.
  intros Hst Hb.
  assert (programVerificationEnabled (findProgram programs (program_id reg))
          = true) as Hen.
  { apply (proj1 (BadgeFacts.getVerificationBadge_is_Some
                    NumberToString programs reg)). by eexists. }
  rewrite BadgeFacts.getVerificationBadge_verified in Hb by done.
  injection Hb as <-. simpl. split; [|split].
  - intros p Hp Hsmall%BadgeFacts.Qle_bool_false.
    unfold detailsPercentText. rewrite Hp. simpl.
    rewrite bool_decide_eq_false_2; [done|]. by apply toFixed_1_nonempty.
  - intros Hp. unfold detailsPercentText. rewrite Hp. by vm_compute.
  - unfold detailsVerifiedShown. rewrite Hen, Hst. reflexivity.
Qed.

Lemma details_text_and_badge_text_witness :
  detailsPercentText (λ _, "") (sampleReg "prog" "1" "p1" "verified" (Some 55%Q))
  = "55.0%".
Proof.
  destruct (details_text_and_badge_text (λ _, "") [sampleProgram]
              (sampleReg "prog" "1" "p1" "verified" (Some 55%Q))
              {| variant := None; className := Some "bg-amber-600";
                 icon := CheckCircle2; text := "55.0%" |})
    as [Hsome _]; [reflexivity | by vm_compute |].
  apply (Hsome 55%Q); [reflexivity | by vm_compute].
Defined.

(** X10: with "All Programs" selected the verify button is still offered for a
    registration of a verification-enabled program, but the verification
    dialog it opens is handed an empty question list. *)
Theorem verify_under_all_programs_has_no_questions programs select reg st :
  selectedProgramId st = "all" →
  programVerificationEnabled (findProgram programs (program_id reg)) = true →
  is_Some (verifyAction programs reg) ∧
  verificationProps (handleVerify reg (fetchQuestions true select st))
  = {| prop_registration := Some reg; prop_questions := []; prop_open := true |}.
Proof.
  intros Hall Hen. split; [by apply BadgeFacts.verifyAction_is_Some|].
  unfold verificationProps, handleVerify, fetchQuestions. simpl.
  by rewrite Hall.
Qed.

Lemma verify_under_all_programs_has_no_questions_witness :
  prop_questions
    (verificationProps
       (handleVerify pendingReg
          (fetchQuestions true (λ _, Some sampleQuestions)
             (resetOnClose false
                {| selectedProgramId := "prog"; shownRegistrations := [];
                   formQuestions := sampleQuestions;
                   verifyingRegistration := None |})))) = [].
Proof.
  destruct (verify_under_all_programs_has_no_questions [sampleProgram]
              (λ _, Some sampleQuestions) pendingReg
              (resetOnClose false
                 {| selectedProgramId := "prog"; shownRegistrations := [];
                    formQuestions := sampleQuestions;
                    verifyingRegistration := None |}))
    as [_ Hprops]; [reflexivity | reflexivity |].
  by rewrite Hprops.
Defined.

(** With one program selected the dialog is handed the questions of that
    program, or none when the query yields no data. *)
Lemma fetchQuestions_selected select st :
  selectedProgramId st ≠ "all" → selectedProgramId st ≠ "" →
  formQuestions (fetchQuestions true select st)
  = default [] (select (selectedProgramId st)).
Proof.
  intros Hall Hempty. unfold fetchQuestions. simpl.
  by rewrite !bool_decide_eq_false_2.
Qed.

End ViewFacts.

(** ** Further properties of [fetchRegistrations] *)

Module FetchMore.
Import JS Dialog.

(** X11: how a run can fall short.  A closed dialog or a missing token leave
    the state untouched; a request that throws keeps the list shown and
    ends loading; requests that are all answered but not [ok] replace the
    list by the empty one. *)
Theorem fetch_shortfalls getTime open adminToken selectedProgramId programs
    filterPanchayathId respond st :
  (open = false ∨ truthyString adminToken = false →
     fetchRegistrations getTime open adminToken selectedProgramId programs
       filterPanchayathId respond st = st) ∧
  (open = true → truthyString adminToken = true →
     (∃ p, p ∈ programsToFetch selectedProgramId programs ∧ respond p = Throws) →
     fetchRegistrations getTime open adminToken selectedProgramId programs
       filterPanchayathId respond st
     = {| registrations := registrations st; isLoading := false |}) ∧
  (open = true → truthyString adminToken = true →
     Forall (λ p, respond p = NotOk)
       (programsToFetch selectedProgramId programs) →
     fetchRegistrations getTime open adminToken selectedProgramId programs
       filterPanchayathId respond st
     = {| registrations := []; isLoading := false |}).
Proof.
  split; [|split].
  - unfold fetchRegistrations. intros [-> | ->]; [done|]. by rewrite orb_true_r.
  - intros -> Htoken (p & Hp & Hthrows). unfold fetchRegistrations.
    rewrite Htoken. simpl.
    destruct (fetchLoop _ _ _) as [all|] eqn:Hloop; [|done].
    assert (is_Some (fetchLoop respond
                       (programsToFetch selectedProgramId programs) []))
      as Hsome by by eexists.
    apply FetchFacts.fetchLoop_is_Some in Hsome.
    rewrite Forall_forall in Hsome. by destruct (Hsome p Hp).
  - intros -> Htoken Hnotok.
    rewrite FetchFacts.fetchRegistrations_completes; [|done|].
    + f_equal.
      assert (fetched respond (programsToFetch selectedProgramId programs) = [])
        as ->.
      { induction Hnotok as [|p ps Hp _ IH]; simpl; [done|]. by rewrite Hp. }
      unfold arrange. by destruct (truthyString filterPanchayathId).
    + eapply Forall_impl; [exact Hnotok|]. intros p ->. discriminate.
Qed.

Lemma fetch_shortfalls_witness :
  fetchRegistrations (λ _, None) true (Some "token") "all" [sampleProgram] None
    (λ _, NotOk)
    {| registrations := [sampleReg "prog" "1" "p1" "pending" None];
       isLoading := false |}
  = {| registrations := []; isLoading := false |}.
Proof.
  destruct (fetch_shortfalls (λ _, None) true (Some "token") "all"
              [sampleProgram] None (λ _, NotOk)
              {| registrations := [sampleReg "prog" "1" "p1" "pending" None];
                 isLoading := false |}) as (_ & _ & Hnotok).
  apply Hnotok; [reflexivity | reflexivity | by repeat constructor].
Defined.

Lemma filter_all_true {A} (f : A → bool) l :
  (∀ x, In x l → f x = true) → List.filter f l = l.
Proof.
  induction l as [|x l IH]; intros Hall; simpl; [done|].
  rewrite (Hall x) by by left. rewrite IH; [done|].
  intros y Hy. apply Hall. by right.
Qed.

(** A list that is already newest first is left as it is. *)
Lemma sort_of_sorted getTime l :
  Forall (λ r, is_Some (createdTime getTime r)) l →
  StronglySorted (newerOrEqual getTime) l →
  sort (compareCreated getTime) l = l.
Proof.
  intros Hdated Hsorted. induction Hsorted as [|x l Hs IH Hx]; [done|].
  apply Forall_cons in Hdated as [Hdx Hdl].
  unfold sort in *. simpl. rewrite (IH Hdl).
  destruct l as [|y l']; [done|]. simpl.
  apply Forall_cons in Hx as [Hxy _]. apply Forall_cons in Hdl as [Hdy _].
  rewrite decide_True; [done|]. by apply FetchFacts.compareCreated_le.
Qed.

(** X12: arranging is idempotent: filtering and sorting the list that is shown
    gives that list again, so fetching the same registrations in the
    order shown changes nothing. *)
Theorem arrange_idempotent getTime filterPanchayathId all :
  Forall (λ r, is_Some (createdTime getTime r)) all →
  arrange getTime filterPanchayathId (arrange getTime filterPanchayathId all)
  = arrange getTime filterPanchayathId all.
Proof.
  intros Hdated.
  assert (Forall (λ r, is_Some (createdTime getTime r))
            (if truthyString filterPanchayathId
             then List.filter (inPanchayath (default "" filterPanchayathId)) all
             else all)) as Hdated'.
  { destruct (truthyString filterPanchayathId); [|done].
    rewrite Forall_forall in Hdated. apply Forall_forall.
    intros r Hr%list_elem_of_In%filter_In. apply Hdated, list_elem_of_In, Hr. }
  unfold arrange at 1.
  assert ((if truthyString filterPanchayathId
           then List.filter (inPanchayath (default "" filterPanchayathId))
                  (arrange getTime filterPanchayathId all)
           else arrange getTime filterPanchayathId all)
          = arrange getTime filterPanchayathId all) as ->.
  { destruct (truthyString filterPanchayathId) eqn:Hf; [|done].
    apply filter_all_true. intros r Hr%list_elem_of_In.
    rewrite FetchFacts.arrange_Permutation, Hf in Hr.
    by apply list_elem_of_In, filter_In in Hr as [_ ?]. }
  apply sort_of_sorted.
  - by rewrite FetchFacts.arrange_Permutation.
  - unfold arrange. by apply FetchFacts.sort_sorted.
Qed.

Lemma arrange_idempotent_witness :
  arrange (λ s, Some (Z.of_nat (String.length s))) (Some "p1")
    (arrange (λ s, Some (Z.of_nat (String.length s))) (Some "p1")
       [sampleReg "prog" "1" "p1" "pending" None;
        sampleReg "prog" "333" "p1" "pending" None;
        sampleReg "prog" "22" "p2" "pending" None])
  = [sampleReg "prog" "333" "p1" "pending" None;
     sampleReg "prog" "1" "p1" "pending" None].
Proof.
  rewrite arrange_idempotent; [by vm_compute|].
  repeat constructor; by eexists.
Defined.

(** X13: registrations created at the same instant stay in the order in which
    they were fetched. *)
Theorem fetch_keeps_order_of_equal_times getTime adminToken selectedProgramId
    programs respond st t :
  truthyString adminToken = true →
  Forall (λ p, respond p ≠ Throws) (programsToFetch selectedProgramId programs) →
  Forall (λ r, is_Some (createdTime getTime r))
    (fetched respond (programsToFetch selectedProgramId programs)) →
  List.filter (λ r, bool_decide (createdTime getTime r = Some t))
    (registrations (fetchRegistrations getTime true adminToken selectedProgramId
                      programs None respond st))
  = List.filter (λ r, bool_decide (createdTime getTime r = Some t))
      (fetched respond (programsToFetch selectedProgramId programs)).
Proof.
  intros Htoken Hok Hdated.
  rewrite FetchFacts.fetchRegistrations_completes by done. simpl.
  unfold arrange. simpl. by apply FetchFacts.sort_stable.
Qed.

Lemma fetch_keeps_order_of_equal_times_witness :
  map Dialog.id
    (List.filter
       (λ r, bool_decide
               (createdTime (λ s, Some (Z.of_nat (String.length s))) r
                = Some 1%Z))
       (registrations
          (fetchRegistrations (λ s, Some (Z.of_nat (String.length s))) true
             (Some "token") "prog" [sampleProgram] None
             (λ _, Ok [sampleReg "prog" "a" "p1" "pending" None;
                       sampleReg "prog" "bb" "p1" "pending" None;
                       sampleReg "prog" "c" "p2" "pending" None])
             {| registrations := []; isLoading := false |})))
  = ["a"; "c"].
Proof.
  rewrite fetch_keeps_order_of_equal_times.
  - by vm_compute.
  - reflexivity.
  - simpl. repeat constructor; discriminate.
  - simpl. repeat constructor; by eexists.
Defined.

End FetchMore.

(** ** Properties of the module manager and the program page *)

Module ModuleFacts.
Import Modules.

Lemma getModule_Some modules type m :
  getModule modules type = Some m → m ∈ modules ∧ module_type m = type.
Proof.
  unfold getModule. intros [Hin Hty]%find_some.
  split; [by apply list_elem_of_In | by apply bool_decide_eq_true in Hty].
Qed.

Lemma getModule_None modules type :
  getModule modules type = None ↔ ∀ m, m ∈ modules → module_type m ≠ type.
Proof.
  unfold getModule. split.
  - intros Hnone m Hm%list_elem_of_In. apply (find_none _ _ Hnone) in Hm.
    by apply bool_decide_eq_false in Hm.
  - intros Hall. destruct (List.find _ _) as [m|] eqn:Hfind; [|done].
    apply find_some in Hfind as [Hin%list_elem_of_In Hty].
    apply bool_decide_eq_true in Hty. by destruct (Hall m Hin).
Qed.

Lemma request_settle call outcome done fallback :
  request (settle call outcome done fallback) = call.
Proof. by destruct outcome. Qed.

(** X14: the enable switch never asks for a duplicate and never deletes a
    stranger: it asks to delete a module of the list that has the type of
    the row, or, when the list has no module of that type, to create one,
    for this program and unpublished. *)
Theorem toggle_request_is_targeted toUpperCase programId modules invoke type :
  match request (handleModuleToggle toUpperCase programId modules invoke type) with
  | ApiDelete i => ∃ m, m ∈ modules ∧ id m = i ∧ module_type m = type
  | ApiCreate program ty published =>
      program = programId ∧ ty = type ∧ published = false ∧
      ∀ m, m ∈ modules → module_type m ≠ type
  | ApiUpdate _ _ => False
  end.
Proof.
  unfold handleModuleToggle.
  destruct (getModule modules type) as [m|] eqn:Hm; rewrite request_settle.
  - apply getModule_Some in Hm as [Hin Hty]. by exists m.
  - rewrite getModule_None in Hm. done.
Qed.

(** X15: an error that comes with a response is never reported with an empty
    text, and the list of modules is fetched again exactly when the call
    went through; the busy marker is cleared either way. *)
Theorem toggle_settles toUpperCase programId modules invoke type :
  isUpdating (handleModuleToggle toUpperCase programId modules invoke type)
  = None ∧
  (modulesChanged (handleModuleToggle toUpperCase programId modules invoke type)
   = true ↔
   callAdminModulesApi
     (invoke (request (handleModuleToggle toUpperCase programId modules
                         invoke type))) = Returned) ∧
  (toast_variant
     (toast (handleModuleToggle toUpperCase programId modules invoke type))
   = Some "destructive" ↔
   modulesChanged (handleModuleToggle toUpperCase programId modules invoke type)
   = false) ∧
  (∀ error data_error,
     invoke (request (handleModuleToggle toUpperCase programId modules
                        invoke type)) = Responded error data_error →
     modulesChanged (handleModuleToggle toUpperCase programId modules invoke type)
     = false →
     toast_title
       (toast (handleModuleToggle toUpperCase programId modules invoke type))
     = "Error" ∧
     toast_description
       (toast (handleModuleToggle toUpperCase programId modules invoke type))
     ≠ "").
Proof.
  unfold handleModuleToggle.
  destruct (getModule modules type) as [m|]; cbv zeta;
    rewrite !request_settle;
    (destruct (invoke _) as [[message|] [e|]|err] eqn:Hinv; simpl;
     repeat case_bool_decide; simpl;
     repeat split; try done; try (intros ? ? [= <- <-]); try done;
     intros; try done).
Qed.

Lemma find_is_Some_existsb {A} (f : A → bool) l :
  is_Some (List.find f l) ↔ existsb f l = true.
Proof.
  induction l as [|x l IH]; simpl.
  - split; [by intros [? ?] | done].
  - destruct (f x); simpl; [|done]. split; [done | by eexists].
Qed.

Lemma hasModule_isEnabled modules type :
  hasModule modules type = isEnabled (managerModules modules) type.
Proof.
  unfold hasModule, isEnabled, managerModules, getModule.
  destruct modules as [ms|]; simpl; [|done].
  destruct (existsb _ ms) eqn:Hex.
  - symmetry. apply bool_decide_eq_true. by apply find_is_Some_existsb.
  - symmetry. apply bool_decide_eq_false.
    intros Hsome%find_is_Some_existsb. congruence.
Qed.

(** X16: the tabs of the program page follow the switches of the module
    manager: a module's tab is there exactly when its switch is on, the
    "registrations" tab comes and goes with the "registration" tab, and
    the "modules" tab, which is the default, is always there. *)
Theorem tabs_follow_switches modules :
  (∀ type, hasModule modules type = isEnabled (managerModules modules) type) ∧
  "modules" ∈ tabs modules ∧
  ("announcements" ∈ tabs modules ↔
   isEnabled (managerModules modules) "announcement" = true) ∧
  ("registration" ∈ tabs modules ↔
   isEnabled (managerModules modules) "registration" = true) ∧
  ("registrations" ∈ tabs modules ↔
   isEnabled (managerModules modules) "registration" = true) ∧
  ("advertisements" ∈ tabs modules ↔
   isEnabled (managerModules modules) "advertisement" = true) ∧
  NoDup (tabs modules).
Proof.
  split; [apply hasModule_isEnabled|].
  rewrite <- !hasModule_isEnabled. unfold tabs.
  destruct (hasModule modules "announcement"),
           (hasModule modules "registration"),
           (hasModule modules "advertisement"); simpl;
    repeat split; intros; try done;
    try (apply (bool_decide_unpack _); by vm_compute);
    try (exfalso; match goal with
                  | H : _ ∈ _ |- _ =>
                      apply (bool_decide_pack _) in H; by vm_compute in H
                  end).
Qed.

(** X17: what a row shows and what its switches ask for agree: the enable
    switch is on exactly when flipping it asks for a deletion, a "Draft"
    row asks to publish and a "Published" row to unpublish, and a row
    without badge has no publish switch. *)
Theorem row_display_and_requests_agree toUpperCase programId modules invoke type :
  (isEnabled modules type = true ↔
   ∃ i, request (handleModuleToggle toUpperCase programId modules invoke type)
        = ApiDelete i) ∧
  (moduleBadge modules type = Some "Draft" →
   ∃ i, publishSwitchCall modules type = Some (ApiUpdate i true)) ∧
  (moduleBadge modules type = Some "Published" →
   ∃ i, publishSwitchCall modules type = Some (ApiUpdate i false)) ∧
  (moduleBadge modules type = None ↔ publishSwitchCall modules type = None).
Proof.
  unfold isEnabled, moduleBadge, publishSwitchCall, isPublished,
    handleModuleToggle, isEnabled.
  destruct (getModule modules type) as [m|]; rewrite request_settle; simpl.
  - split; [split; [by eexists | done]|].
    destruct (is_published m); simpl;
      (split; [|split]); try done; intros; by eexists.
  - split; [split; [done | by intros [? ?]]|]. done.
Qed.

End ModuleFacts.

(** ** Properties of editing a program *)

Module ProgramEditFacts.
Import Modules ProgramEdit.

Lemma orNull_orEmpty (x : option string) :
  x ≠ Some "" → orNull (orEmpty x) = x.
Proof.
  unfold orNull, orEmpty. destruct x as [s|]; simpl; [|done].
  intros Hs. rewrite bool_decide_eq_false_2; [done|]. by intros ->.
Qed.

(** X18: opening the edit dialog and saving without touching the form sends
    the stored values back: for a program whose name and description have
    nothing to trim and none of whose optional texts is the empty string,
    the update carries exactly the stored name, description, dates and
    flags (a missing verification flag as false). *)
Theorem unedited_save_sends_stored_values trim p update st :
  trim "" = "" →
  trim (name p) = name p →
  (∀ d, description p = Some d → trim d = d ∧ d ≠ "") →
  start_date p ≠ Some "" → end_date p ≠ Some "" →
  sent (handleUpdateProgram trim (Some p) update (openEditDialog (Some p) st))
  = Some {| target := id p;
            new_name := name p;
            new_description := description p;
            new_start_date := start_date p;
            new_end_date := end_date p;
            new_is_active := is_active p;
            new_verification_enabled := default false (verification_enabled p) |}.
Proof.
  intros Hempty Hname Hdesc Hstart Hend.
  assert (sent (handleUpdateProgram trim (Some p) update
                  (openEditDialog (Some p) st))
          = Some (updatePayload trim p (openEditDialog (Some p) st))) as ->.
  { unfold handleUpdateProgram. by destruct (update _). }
  unfold updatePayload. simpl. rewrite Hname.
  rewrite (orNull_orEmpty (start_date p)), (orNull_orEmpty (end_date p)) by done.
  do 2 f_equal.
  destruct (description p) as [d|] eqn:Hd; simpl.
  - destruct (Hdesc d eq_refl) as [-> Hne].
    unfold orNull. by rewrite bool_decide_eq_false_2.
  - by rewrite Hempty.
Qed.

Lemma unedited_save_sends_stored_values_witness :
  new_description
  <$> sent (handleUpdateProgram (λ s, s)
              (Some {| id := "prog"; name := "Camp"; description := None;
                       start_date := Some "2026-02-03"; end_date := None;
                       is_active := true; verification_enabled := None |})
              (λ _, None)
              (openEditDialog
                 (Some {| id := "prog"; name := "Camp"; description := None;
                          start_date := Some "2026-02-03"; end_date := None;
                          is_active := true; verification_enabled := None |})
                 initialState))
  = Some None.
Proof.
  rewrite (unedited_save_sends_stored_values (λ s, s)); try done.
Defined.



(** X20: a failed save keeps the dialog open with the form as it was and
    shows an error whose text is not empty; a successful save closes the
    dialog and fetches the program again.  Either way the busy flag is
    cleared and the form fields are not touched. *)
Theorem save_outcome trim p update st :
  isUpdating (after (handleUpdateProgram trim (Some p) update st)) = false ∧
  after (handleUpdateProgram trim (Some p) update st)
  = withFlags (isEditDialogOpen (after (handleUpdateProgram trim (Some p) update st)))
      false st ∧
  (refetched (handleUpdateProgram trim (Some p) update st) = true ↔
   update (updatePayload trim p st) = None) ∧
  (update (updatePayload trim p st) = None →
   isEditDialogOpen (after (handleUpdateProgram trim (Some p) update st)) = false) ∧
  (update (updatePayload trim p st) ≠ None →
   isEditDialogOpen (after (handleUpdateProgram trim (Some p) update st))
   = isEditDialogOpen st ∧
   ∃ t, update_toast (handleUpdateProgram trim (Some p) update st) = Some t ∧
        toast_variant t = Some "destructive" ∧ toast_description t ≠ "").
Proof.
  unfold handleUpdateProgram.
  destruct (update (updatePayload trim p st)) as [message|]; simpl.
  - split; [done|]. split; [done|]. split; [done|]. split; [done|].
    intros _. split; [done|]. eexists. split; [done|]. simpl.
    split; [done|]. by case_bool_decide.
  - split; [done|]. split; [done|]. split; [done|]. split; [done|].
    intros Hfail. by destruct Hfail.
Qed.

End ProgramEditFacts.

(** ** Properties of the clusters page *)

Module ClusterFacts.
Import Modules Clusters.

(** X21: for a cluster whose [is_active] is set, the button names what the
    click does.  For one whose [is_active] is [null] it does not: the row
    reads Inactive and the button reads Activate, but the click writes
    [is_active = false] and announces a deactivation. *)
Theorem toggle_button_and_click failed c :
  (∀ b, is_active c = Some b →
     toggled_is_active (clickToggle failed c) = negb b ∧
     (buttonText c = "Activate" ↔
      toggled_is_active (clickToggle failed c) = true) ∧
     (buttonText c = "Deactivate" ↔
      toggled_is_active (clickToggle failed c) = false)) ∧
  (is_active c = None →
     statusText c = "Inactive" ∧ buttonText c = "Activate" ∧
     toggled_is_active (clickToggle failed c) = false ∧
     toast_description (toggled_toast (clickToggle false c))
     = "Cluster has been deactivated.") ∧
  toggled_id (clickToggle failed c) = id c ∧
  toggled_refetch (clickToggle failed c) = negb failed.
Proof.
  unfold clickToggle, toggleClusterStatus, buttonText, statusText, truthy.
  split; [|split; [|done]].
  - intros b ->. by destruct b.
  - by intros ->.
Qed.

(** X22: creating a cluster: without a selected panchayath nothing is
    inserted and the form stays as it was, with the error "Please select
    a panchayath".  A row that is inserted always names a panchayath and
    never carries an empty Malayalam name ([null] instead).  The form is
    emptied and the dialog closed exactly on success, an error text is
    set exactly on failure, and submitting is over either way. *)
Theorem create_cluster_outcome trim insert form :
  (selectedPanchayath form = "" →
     inserted (handleCreateCluster trim insert form) = None ∧
     form_after (handleCreateCluster trim insert form)
     = {| clusterName := clusterName form;
          clusterNameMl := clusterNameMl form;
          selectedPanchayath := "";
          error := "Please select a panchayath";
          isDialogOpen := isDialogOpen form;
          isSubmitting := false |}) ∧
  (∀ row, inserted (handleCreateCluster trim insert form) = Some row →
     ins_panchayath_id row = selectedPanchayath form ∧
     ins_panchayath_id row ≠ "" ∧ ins_name_ml row ≠ Some "" ∧
     ins_name row = trim (clusterName form)) ∧
  (created_toast (handleCreateCluster trim insert form) = true ↔
   ∃ row, inserted (handleCreateCluster trim insert form) = Some row ∧
          insert row = None) ∧
  (created_toast (handleCreateCluster trim insert form) = true →
     form_after (handleCreateCluster trim insert form)
     = {| clusterName := ""; clusterNameMl := ""; selectedPanchayath := "";
          error := ""; isDialogOpen := false; isSubmitting := false |}) ∧
  (error (form_after (handleCreateCluster trim insert form)) = "" ↔
   created_toast (handleCreateCluster trim insert form) = true) ∧
  created_refetch (handleCreateCluster trim insert form)
  = created_toast (handleCreateCluster trim insert form) ∧
  isSubmitting (form_after (handleCreateCluster trim insert form)) = false.
Proof.
  unfold handleCreateCluster.
  destruct (bool_decide (selectedPanchayath form = "")) eqn:Hsel.
  - apply bool_decide_eq_true in Hsel. simpl.
    split; [intros _; by rewrite Hsel|].
    split; [done|]. split; [split; [done | by intros (? & ? & _)]|].
    split; [done|]. split; [done|]. done.
  - apply bool_decide_eq_false in Hsel.
    split; [done|].
    destruct (insert _) as [message|] eqn:Hins; simpl.
    + split.
      { intros row [= <-]. simpl. repeat split; try done.
        case_bool_decide; [done | by intros [= ?]]. }
      split.
      { split; [done|]. intros (row & [= <-] & Hnone). congruence. }
      split; [done|]. split; [|done].
      split; [|done]. clear Hins. by case_bool_decide.
    + split.
      { intros row [= <-]. simpl. repeat split; try done.
        case_bool_decide; [done | by intros [= ?]]. }
      split; [split; [intros _; by eexists | done]|].
      done.
Qed.

Example create_cluster_blank_name :
  inserted
    (handleCreateCluster (λ s, if bool_decide (s = "  ") then "" else s)
       (λ _, None)
       {| clusterName := "  "; clusterNameMl := ""; selectedPanchayath := "p1";
          error := ""; isDialogOpen := true; isSubmitting := false |})
  = Some {| ins_name := ""; ins_name_ml := None; ins_panchayath_id := "p1" |}.
Proof. reflexivity. Qed.

End ClusterFacts.

(** ** Properties of the row-level policies *)

Module PolicyFacts.
Import Policies.

Lemma sql_eq_spec a b : sql_eq a b = true ↔ ∃ x, a = Some x ∧ b = Some x.
Proof.
  destruct a as [x|], b as [y|]; simpl;
    try (split; [done | by intros (? & ? & ?)]).
  rewrite bool_decide_eq_true. split.
  - intros ->. by eexists.
  - by intros (z & [= ->] & [= ->]).
Qed.

Lemma NoDup_map_inj {A B} (f : A → B) l x y :
  NoDup (map f l) → x ∈ l → y ∈ l → f x = f y → x = y.
Proof.
  induction l as [|z l IH]; intros Hnd Hx Hy Hf; [by apply elem_of_nil in Hx|].
  simpl in Hnd. apply NoDup_cons in Hnd as [Hz Hnd].
  apply elem_of_cons in Hx as [-> | Hx]; apply elem_of_cons in Hy as [-> | Hy].
  - done.
  - destruct Hz. rewrite Hf. by apply (list_elem_of_fmap_2 f).
  - destruct Hz. rewrite <- Hf. by apply (list_elem_of_fmap_2 f).
  - by apply IH.
Qed.

(** X23: who may update a registration.  A super admin always may.  Anyone
    else may only with the admin role, and only when the program of the
    registration has a division and it is the user's own: an admin of
    another division, or one without a division, may not. *)
Theorem update_needs_own_division has_role user_division programs program_id p :
  NoDup (map id programs) → p ∈ programs → id p = program_id →
  (has_role super_admin = true →
     update_allowed has_role user_division programs program_id = true) ∧
  (has_role super_admin = false →
     update_allowed has_role user_division programs program_id = true ↔
     has_role admin = true ∧
     ∃ d, division_id p = Some d ∧ user_division = Some d).
Proof.
  intros Hnd Hp Hid. unfold update_allowed, super_admin_can_update.
  split; [intros ->; by rewrite orb_true_r|].
  intros ->. rewrite orb_false_r. unfold admins_can_update.
  rewrite andb_true_iff, existsb_exists.
  apply and_iff_compat_l. split.
  - intros (q & Hq%list_elem_of_In & [Hqid Hdiv]%andb_true_iff).
    apply bool_decide_eq_true in Hqid.
    assert (q = p) as ->.
    { apply (NoDup_map_inj id programs); [done..|]. congruence. }
    by apply sql_eq_spec.
  - intros Hdiv%sql_eq_spec. exists p.
    split; [by apply list_elem_of_In|].
    by rewrite bool_decide_eq_true_2.
Qed.

Lemma update_needs_own_division_witness :
  update_allowed (λ r, match r with admin => true | super_admin => false end)
    (Some "north")
    [ {| id := "prog"; division_id := Some "south" |} ] "prog" = false.
Proof.
  destruct (update_needs_own_division
              (λ r, match r with admin => true | super_admin => false end)
              (Some "north")
              [ {| id := "prog"; division_id := Some "south" |} ] "prog"
              {| id := "prog"; division_id := Some "south" |})
    as [_ Hadmin].
  - apply (bool_decide_unpack _). by vm_compute.
  - by left.
  - reflexivity.
  - destruct (update_allowed _ _ _ _) eqn:E; [|done].
    destruct (proj1 (Hadmin eq_refl) eq_refl) as (_ & d & [= <-] & [=]).
Defined.

(** X24: the clusters policy, for all that it is called "in their division",
    asks for the admin role and for the panchayath of the cluster to
    exist, nothing else: on a cluster of an existing panchayath its
    [USING] expression is the [WITH CHECK] expression, the admin role. *)
Theorem clusters_policy_is_the_admin_role has_role panchayath_ids panchayath_id :
  (clusters_using has_role panchayath_ids panchayath_id = true ↔
   has_role admin = true ∧
   ∃ x, panchayath_id = Some x ∧ x ∈ panchayath_ids) ∧
  (∀ x, x ∈ panchayath_ids →
     clusters_using has_role panchayath_ids (Some x)
     = clusters_with_check has_role).
Proof.
  assert (∀ pid, existsb (λ x, sql_eq (Some x) pid)
                   (List.filter (λ y, sql_eq (Some y) pid) panchayath_ids)
                 = true ↔ ∃ x, pid = Some x ∧ x ∈ panchayath_ids) as Hin.
  { intros pid. rewrite existsb_exists. split.
    - intros (x & [Hx _]%filter_In & (y & [= <-] & ->)%sql_eq_spec).
      exists x. split; [done | by apply list_elem_of_In].
    - intros (x & -> & Hx). exists x.
      assert (sql_eq (Some x) (Some x) = true) as Heq
        by (apply sql_eq_spec; by exists x).
      split; [|done]. apply filter_In. split; [by apply list_elem_of_In | done]. }
  unfold clusters_using, clusters_with_check. split.
  - by rewrite andb_true_iff, Hin.
  - intros x Hx.
    assert (existsb (λ y, sql_eq (Some y) (Some x))
              (List.filter (λ y, sql_eq (Some y) (Some x)) panchayath_ids)
            = true) as ->; [|by rewrite andb_true_r].
    apply Hin. by exists x.
Qed.

End PolicyFacts.
